(** * Toy plugin: type inference, schema discovery, publishing, handshake

    A shallow embedding of the node plugin ([plugin.js], [utils.js], in its
    two versions) and of the start-up sequence of the Go host ([host.go]).

    Strings are [string]s read as the UTF-8 bytes of the JavaScript text.
    The built-ins of the JavaScript engine that the plugin calls are embedded
    in [Module Js]: the ones whose result is fixed by ECMAScript for the
    questions asked here ([Number] being [NaN] or not, [indexOf], [split],
    [toLowerCase] compared with ASCII words, [path.basename]) are functions;
    the ones that are implementation defined or yield doubles ([Date.parse],
    [parseInt], [parseFloat]) are the fields of the class [Engine]. *)

From Stdlib Require Import String Ascii List ZArith NArith Bool Arith Lia.
From Stdlib Require Import Permutation DecimalString.
From Stdlib Require DecimalNat.
Import ListNotations.

Local Open Scope string_scope.
Local Open Scope list_scope.

(* ------------------------------------------------------------------ *)
(** ** JavaScript built-ins *)
(* ------------------------------------------------------------------ *)

Module Js.

Definition code (c : ascii) : N := N_of_ascii c.

Definition chars (s : string) : list ascii := list_ascii_of_string s.
Definition text (l : list ascii) : string := string_of_list_ascii l.

(** *** [String.prototype] *)

(** [s.indexOf(c)] for a one-character needle: the position of its first
    occurrence, [-1] when there is none. *)
Fixpoint indexOf_from (i : Z) (c : ascii) (s : string) : Z :=
  match s with
  | EmptyString => (-1)%Z
  | String a r => if Ascii.eqb a c then i else indexOf_from (i + 1)%Z c r
  end.

Definition indexOf (s : string) (c : ascii) : Z := indexOf_from 0%Z c s.

(** [s.toLowerCase()].  Only the letters A-Z are mapped; every other byte is
    kept.  The plugin only compares the result with the words [true], [false],
    [t] and [f], and no character outside A-Z has one of their letters as its
    lower case, so the comparisons come out as in JavaScript. *)
Definition lowerChar (c : ascii) : ascii :=
  if ((65 <=? code c) && (code c <=? 90))%N
  then ascii_of_N (code c + 32) else c.

Fixpoint toLowerCase (s : string) : string :=
  match s with
  | EmptyString => EmptyString
  | String a r => String (lowerChar a) (toLowerCase r)
  end.

(** [s.split(c)] for a one-character separator: never the empty array. *)
Fixpoint split (c : ascii) (s : string) : list string :=
  match s with
  | EmptyString => [EmptyString]
  | String a r =>
      if Ascii.eqb a c then EmptyString :: split c r
      else match split c r with
           | [] => [String a EmptyString]
           | w :: ws => String a w :: ws
           end
  end.

(** *** [Number(s)] being [NaN]: the StringNumericLiteral grammar *)

Definition isDecimalDigit (c : ascii) : bool :=
  ((48 <=? code c) && (code c <=? 57))%N.

Definition isBinaryDigit (c : ascii) : bool :=
  ((code c =? 48) || (code c =? 49))%N.

Definition isOctalDigit (c : ascii) : bool :=
  ((48 <=? code c) && (code c <=? 55))%N.

Definition isHexDigit (c : ascii) : bool :=
  isDecimalDigit c
  || ((65 <=? code c) && (code c <=? 70))%N
  || ((97 <=? code c) && (code c <=? 102))%N.

(** StrWhiteSpaceChar: WhiteSpace and LineTerminator, in UTF-8.
    One byte: TAB, LF, VT, FF, CR, SP. *)
Definition isWhiteSpace1 (a : ascii) : bool :=
  ((code a =? 9) || (code a =? 10) || (code a =? 11) || (code a =? 12)
   || (code a =? 13) || (code a =? 32))%N.

(** Two bytes: U+00A0. *)
Definition isWhiteSpace2 (a b : ascii) : bool :=
  ((code a =? 194) && (code b =? 160))%N.

(** Three bytes: U+1680, U+2000..U+200A, U+2028, U+2029, U+202F, U+205F,
    U+3000, U+FEFF. *)
Definition isWhiteSpace3 (a b c : ascii) : bool :=
  ((code a =? 225) && (code b =? 154) && (code c =? 128)
   || (code a =? 226) && (code b =? 128)
      && ((128 <=? code c) && (code c <=? 138)
          || (code c =? 168) || (code c =? 169) || (code c =? 175))
   || (code a =? 226) && (code b =? 129) && (code c =? 159)
   || (code a =? 227) && (code b =? 128) && (code c =? 128)
   || (code a =? 239) && (code b =? 187) && (code c =? 191))%N.

(** Drops the white space at the front of [l]; [w2] and [w3] receive the
    bytes in the order they have in [l]. *)
Fixpoint skipWhiteSpace (w2 : ascii -> ascii -> bool)
    (w3 : ascii -> ascii -> ascii -> bool) (l : list ascii) : list ascii :=
  match l with
  | [] => []
  | a :: r =>
      if isWhiteSpace1 a then skipWhiteSpace w2 w3 r
      else match r with
           | [] => l
           | b :: r2 =>
               if w2 a b then skipWhiteSpace w2 w3 r2
               else match r2 with
                    | [] => l
                    | c :: r3 =>
                        if w3 a b c then skipWhiteSpace w2 w3 r3 else l
                    end
           end
  end.

Definition trimStart (l : list ascii) : list ascii :=
  skipWhiteSpace isWhiteSpace2 isWhiteSpace3 l.

Definition trimEnd (l : list ascii) : list ascii :=
  rev (skipWhiteSpace (fun a b => isWhiteSpace2 b a)
                      (fun a b c => isWhiteSpace3 c b a) (rev l)).

Definition trim (l : list ascii) : list ascii := trimEnd (trimStart l).

Fixpoint skipDigits (l : list ascii) : list ascii :=
  match l with
  | a :: r => if isDecimalDigit a then skipDigits r else l
  | [] => []
  end.

(** DecimalDigits: one digit or more; what follows them. *)
Definition decimalDigits (l : list ascii) : option (list ascii) :=
  match l with
  | a :: r => if isDecimalDigit a then Some (skipDigits r) else None
  | [] => None
  end.

Definition allDigits (l : list ascii) : bool :=
  match decimalDigits l with
  | Some [] => true
  | _ => false
  end.

(** ExponentPart_opt, then the end of the text. *)
Definition exponentOpt (l : list ascii) : bool :=
  match l with
  | [] => true
  | e :: r =>
      if ((code e =? 101) || (code e =? 69))%N then
        match r with
        | s :: d =>
            if ((code s =? 43) || (code s =? 45))%N then allDigits d
            else allDigits r
        | [] => false
        end
      else false
  end.

(** StrUnsignedDecimalLiteral *)
Definition strUnsignedDecimalLiteral (l : list ascii) : bool :=
  if String.eqb (text l) "Infinity" then true
  else match l with
       | d :: r =>
           if (code d =? 46)%N then
             match decimalDigits r with
             | Some rest => exponentOpt rest
             | None => false
             end
           else
             match decimalDigits l with
             | Some (p :: rest) =>
                 if (code p =? 46)%N then exponentOpt (skipDigits rest)
                 else exponentOpt (p :: rest)
             | Some [] => true
             | None => false
             end
       | [] => false
       end.

(** StrDecimalLiteral: an optional sign. *)
Definition strDecimalLiteral (l : list ascii) : bool :=
  match l with
  | s :: r =>
      if ((code s =? 43) || (code s =? 45))%N then strUnsignedDecimalLiteral r
      else strUnsignedDecimalLiteral l
  | [] => false
  end.

(** NonDecimalIntegerLiteral: 0b, 0o, 0x and one digit or more; no sign. *)
Definition nonDecimalIntegerLiteral (l : list ascii) : bool :=
  match l with
  | z :: x :: d :: ds =>
      (code z =? 48)%N
      && (((code x =? 98) || (code x =? 66))%N && forallb isBinaryDigit (d :: ds)
          || ((code x =? 111) || (code x =? 79))%N && forallb isOctalDigit (d :: ds)
          || ((code x =? 120) || (code x =? 88))%N && forallb isHexDigit (d :: ds))
  | _ => false
  end.

(** [isNaN(Number(s))] for a string [s]: the trimmed text is neither empty
    ([Number("")] is [0]) nor a StrNumericLiteral. *)
Definition isNaN_Number (s : string) : bool :=
  match trim (chars s) with
  | [] => false
  | t => negb (strDecimalLiteral t || nonDecimalIntegerLiteral t)
  end.

(** *** [path.basename(p, ext)], POSIX flavour, as documented: the last
    portion of [p], trailing separators ignored, without [ext] when the
    portion ends with it and is longer.  The plugin calls it on a text
    without any dot and with [ext = ".csv"], where the suffix never applies. *)
Fixpoint dropSlashes (l : list ascii) : list ascii :=
  match l with
  | a :: r => if (code a =? 47)%N then dropSlashes r else l
  | [] => []
  end.

Fixpoint takeToSlash (l : list ascii) : list ascii :=
  match l with
  | a :: r => if (code a =? 47)%N then [] else a :: takeToSlash r
  | [] => []
  end.

Fixpoint listEqb (x y : list ascii) : bool :=
  match x, y with
  | [], [] => true
  | a :: x', b :: y' => Ascii.eqb a b && listEqb x' y'
  | _, _ => false
  end.

Definition basename (p ext : string) : string :=
  let last := takeToSlash (dropSlashes (rev (chars p))) in
  let e := rev (chars ext) in
  if (Nat.ltb (List.length e) (List.length last))
     && listEqb (firstn (List.length e) last) e
  then text (rev (skipn (List.length e) last))
  else text (rev last).

(** *** What the engine decides *)

(** [number] stands for the doubles; [Date_parse s] is the time value of
    [Date.parse(s)] (milliseconds since the epoch), [None] for [NaN]. *)
Class Engine := {
  number : Type;
  parseInt : string -> number;
  parseFloat : string -> number;
  Date_parse : string -> option Z
}.

(** [new Date(s)] followed by [setUTCHours(0, 0, 0, 0)]: the start of the
    UTC day of the time value; an invalid date stays invalid. *)
Definition msPerDay : Z := 86400000.

Definition setUTCHours0 (t : option Z) : option Z :=
  option_map (fun ms => (msPerDay * (ms / msPerDay))%Z) t.

(** The values a converted cell can hold. *)
Inductive value `{Engine} : Type :=
| VNumber (x : number)
| VBoolean (b : bool)
| VDate (t : option Z)
| VString (s : string)
| VNull
| VUndefined.

(** A thrown TypeError ends the computation. *)
Inductive result (A : Type) : Type :=
| Ok (a : A)
| TypeError.

Arguments Ok {A} a.
Arguments TypeError {A}.

End Js.

(* ------------------------------------------------------------------ *)
(** ** The contract: what crosses the wire *)
(* ------------------------------------------------------------------ *)

Module Property.
Record t : Type := { name : string; type : string }.
End Property.

(** A schema as [getSchema] builds it: [settings] is an array of paths. *)
Module Schema.
Record t : Type := {
  name : string;
  settings : list string;
  properties : list Property.t
}.
End Schema.

(** [call.request.schema] as [Publish] and [publishFile] read it:
    [settings] is one text, the paths separated by commas. *)
Module Request.
Record t : Type := {
  settings : string;
  properties : list Property.t
}.
End Request.

(** What [call.write] receives; [data] is the array handed to
    [JSON.stringify]. *)
Module PublishRecord.
Section WithEngine.
Context `{Js.Engine}.
Record t : Type := {
  invalid : bool;
  error : option string;
  data : list Js.value
}.
End WithEngine.
End PublishRecord.

(** The server side of the stream: the request, the records written so
    far (oldest first) and whether [call.end()] was called. *)
Module Call.
Section WithEngine.
Context `{Js.Engine}.
Record t : Type := {
  request : Request.t;
  written : list PublishRecord.t;
  ended : bool
}.

Definition write (r : PublishRecord.t) (call : t) : t :=
  {| request := request call;
     written := written call ++ [r];
     ended := ended call |}.

Definition end_ (call : t) : t :=
  {| request := request call; written := written call; ended := true |}.
End WithEngine.
End Call.

(** The result of [checkValidTypes]. *)
Module ValidCheck.
Record t : Type := {
  error : option string;
  index : option nat;
  invalid : bool
}.
End ValidCheck.

(* ------------------------------------------------------------------ *)
(** ** utils.js: what its two versions share *)
(* ------------------------------------------------------------------ *)

Module Utils.
Import Js.

(** A row of the JSON output of the CSV reader: its own properties in the
    order of [Object.keys]. *)
Definition Row : Type := list (string * string).

Definition Object_keys (row : Row) : list string := map fst row.
Definition Object_values (row : Row) : list string := map snd row.

Definition getPropertyNames (properties : list Property.t) : list string :=
  map Property.name properties.

Definition getPropertyTypes (properties : list Property.t) : list string :=
  map Property.type properties.

(** [JSON.stringify(a) === JSON.stringify(b)] on two arrays of strings. *)
Definition areEqualArray (a b : list string) : bool :=
  if list_eq_dec string_dec a b then true else false.

(** The loop of [checkKnownSchemas]: the first known schema with the
    header's length and names. *)
Definition matchesHeader (header : list string) (known : Schema.t) : bool :=
  (List.length (Schema.properties known) =? List.length header)%nat
  && areEqualArray (getPropertyNames (Schema.properties known)) header.

(** Returns [output] and the new [knownSchemas]. *)
Definition checkKnownSchemas (schema : Schema.t) (header : list string)
    (knownSchemas : list Schema.t) : Schema.t * list Schema.t :=
  match find (matchesHeader header) knownSchemas with
  | Some known =>
      ({| Schema.name := Schema.name known;
          Schema.settings := Schema.settings schema;
          Schema.properties := Schema.properties known |}, knownSchemas)
  | None => (schema, knownSchemas ++ [schema])
  end.

(** [path.basename(filepath.split('.')[0], '.csv')] *)
Definition schemaName (filepath : string) : string :=
  basename (hd EmptyString (split "." filepath)) ".csv".

(** The error text of [checkValidTypes]. *)
Definition mismatch (expected got : string) : string :=
  "Expected type: " ++ expected ++ " but got type: " ++ got.

(** [row[i] = v] on an array that has the index [i]. *)
Fixpoint setAt {A : Type} (i : nat) (v : A) (row : list A) : list A :=
  match row, i with
  | [], _ => []
  | _ :: rest, O => v :: rest
  | a :: rest, S i' => a :: setAt i' v rest
  end.

End Utils.

(* ------------------------------------------------------------------ *)
(** ** utils.js with the majority vote, and plugin.js *)
(* ------------------------------------------------------------------ *)

Module Permissive.
Import Js Utils.

Section WithEngine.
Context `{Engine}.

Definition getType (property : string) : string :=
  if negb (isNaN_Number property) then
    if (indexOf property "." =? -1)%Z then "integer" else "number"
  else if String.eqb (toLowerCase property) "true"
          || String.eqb (toLowerCase property) "false"
          || String.eqb (toLowerCase property) "t"
          || String.eqb (toLowerCase property) "f" then "boolean"
  else match Date_parse property with
       | Some _ => "datetime"
       | None => "string"
       end.

Definition convertToType (data : string) (type : string) : value :=
  if String.eqb type "integer" then VNumber (parseInt data)
  else if String.eqb type "number" then VNumber (parseFloat data)
  else if String.eqb type "boolean" then
    VBoolean (String.eqb (toLowerCase data) "true"
              || String.eqb (toLowerCase data) "false"
              || String.eqb (toLowerCase data) "t"
              || String.eqb (toLowerCase data) "f")
  else if String.eqb type "datetime" then
    VDate (setUTCHours0 (Date_parse data))
  else if String.eqb type "string" then VString data
  else VUndefined.

(** [checkValidTypes]: [i] counts up from [0] and [properties] is what is
    left of the row from [i] on.  [types[i]] being undefined makes
    [types[i].type] throw. *)
Fixpoint checkValidTypes_from (i : nat) (properties : list string)
    (types : list Property.t) : result ValidCheck.t :=
  match properties with
  | [] => Ok {| ValidCheck.error := None;
                ValidCheck.index := None;
                ValidCheck.invalid := false |}
  | p :: rest =>
      let type := getType p in
      match nth_error types i with
      | None => TypeError
      | Some ti =>
          if negb (String.eqb type (Property.type ti)) then
            Ok {| ValidCheck.error := Some (mismatch (Property.type ti) type);
                  ValidCheck.index := Some i;
                  ValidCheck.invalid := true |}
          else checkValidTypes_from (S i) rest types
      end
  end.

Definition checkValidTypes (properties : list string)
    (types : list Property.t) : result ValidCheck.t :=
  checkValidTypes_from 0 properties types.

(** *** [getSchema] *)

(** [typeCountArray[j][k]++] on the five counters of a column. *)
Fixpoint increment (k : nat) (counts : list nat) : list nat :=
  match counts, k with
  | [], _ => []
  | c :: rest, O => S c :: rest
  | c :: rest, S k' => c :: increment k' rest
  end.

(** The [switch] on the type of a value: which counter it increments. *)
Definition counterOf (type : string) : option nat :=
  if String.eqb type "integer" then Some 0
  else if String.eqb type "number" then Some 1
  else if String.eqb type "boolean" then Some 2
  else if String.eqb type "datetime" then Some 3
  else if String.eqb type "string" then Some 4
  else None.

(** The inner loop over [values], from the index [j] on.  An undefined
    [typeCountArray[j]] throws. *)
Fixpoint countValues (j : nat) (values : list string)
    (typeCountArray : list (list nat)) : result (list (list nat)) :=
  match values with
  | [] => Ok typeCountArray
  | v :: rest =>
      match counterOf (getType v) with
      | None => countValues (S j) rest typeCountArray
      | Some k =>
          match nth_error typeCountArray j with
          | None => TypeError
          | Some counts =>
              countValues (S j) rest
                (setAt j (increment k counts) typeCountArray)
          end
      end
  end.

(** The outer loop over the rows of [data]. *)
Fixpoint countRows (data : list Row) (typeCountArray : list (list nat))
    : result (list (list nat)) :=
  match data with
  | [] => Ok typeCountArray
  | row :: rest =>
      match countValues 0 (Object_values row) typeCountArray with
      | TypeError => TypeError
      | Ok typeCountArray' => countRows rest typeCountArray'
      end
  end.

Fixpoint getIndexOfMax_from (i : Z) (arr : list nat) (max : nat)
    (maxIndex : Z) : Z :=
  match arr with
  | [] => maxIndex
  | a :: rest =>
      if (max <? a)%nat then getIndexOfMax_from (i + 1)%Z rest a i
      else getIndexOfMax_from (i + 1)%Z rest max maxIndex
  end.

Definition getIndexOfMax (arr : list nat) : Z :=
  match arr with
  | [] => (-1)%Z
  | a :: rest => getIndexOfMax_from 1%Z rest a 0%Z
  end.

(** The [switch] on [typeIndex]; [type] is one [var] of the callback, so an
    index outside [0..4] would leave it as the iteration before left it. *)
Definition typeOfIndex (type : string) (typeIndex : Z) : string :=
  match typeIndex with
  | 0%Z => "integer"
  | 1%Z => "number"
  | 2%Z => "boolean"
  | 3%Z => "datetime"
  | 4%Z => "string"
  | _ => type
  end.

(** The loop that fills [properties]; [type] starts undefined, written
    here as the empty text. *)
Fixpoint pushProperties (type : string) (keys : list string)
    (typeCountArray : list (list nat)) : list Property.t :=
  match keys, typeCountArray with
  | key :: keys', counts :: rest =>
      let type' := typeOfIndex type (getIndexOfMax counts) in
      {| Property.name := key; Property.type := type' |}
      :: pushProperties type' keys' rest
  | _, _ => []
  end.

(** The schema literal of [getSchema], before [checkKnownSchemas]: the
    counting, the vote and the three fields. *)
Definition fileSchema (filepath : string) (keys : list string)
    (data : list Row) : result Schema.t :=
  let typeCountArray := map (fun _ => [0; 0; 0; 0; 0]%nat) keys in
  match countRows data typeCountArray with
  | TypeError => TypeError
  | Ok typeCountArray' =>
      Ok {| Schema.name := schemaName filepath;
            Schema.settings := [filepath];
            Schema.properties :=
              pushProperties EmptyString keys typeCountArray' |}
  end.

(** [getSchema]; [data] is what the CSV reader resolved with.  The result
    is the value the promise resolves with, or the TypeError that leaves it
    pending, and [knownSchemas] afterwards.  [Object.keys] of an undefined
    [data[0]] throws. *)
Definition getSchema (filepath : string) (data : list Row)
    (knownSchemas : list Schema.t) : result Schema.t * list Schema.t :=
  match data with
  | [] => (TypeError, knownSchemas)
  | row :: _ =>
      let keys := Object_keys row in
      match fileSchema filepath keys data with
      | TypeError => (TypeError, knownSchemas)
      | Ok schema =>
          let (output, knownSchemas') :=
            checkKnownSchemas schema keys knownSchemas in
          (Ok output, knownSchemas')
      end
  end.

(** *** [publishFile] and [Publish] *)

(** The conversion loop: every cell but the one at [index] is replaced by
    its conversion, the cell at [index] keeps its text; [j] counts up from
    [0].  An undefined [types[j]] matches no [case]. *)
Fixpoint convertCells (j : nat) (row : list string) (types : list string)
    (index : option nat) : list value :=
  match row with
  | [] => []
  | cell :: rest =>
      (if match index with Some i => negb (j =? i)%nat | None => true end
       then match nth_error types j with
            | Some type => convertToType cell type
            | None => VUndefined
            end
       else VString cell)
      :: convertCells (S j) rest types index
  end.

(** One turn of the row loop; [data] is in the CSV output mode, a row is
    the array of its cells. *)
Definition publishRow (row : list string) (call : Call.t)
    : result unit * Call.t :=
  let schema := Call.request call in
  let types := getPropertyTypes (Request.properties schema) in
  if (List.length row =? List.length types)%nat then
    match checkValidTypes row (Request.properties schema) with
    | TypeError => (TypeError, call)
    | Ok validCheck =>
        let row' := convertCells 0 row types (ValidCheck.index validCheck) in
        if ValidCheck.invalid validCheck then
          let row'' := match ValidCheck.index validCheck with
                       | Some i => setAt i VNull row'
                       | None => row'
                       end in
          (Ok tt,
           Call.write {| PublishRecord.invalid := true;
                         PublishRecord.error := ValidCheck.error validCheck;
                         PublishRecord.data := row'' |} call)
        else
          (Ok tt,
           Call.write {| PublishRecord.invalid := false;
                         PublishRecord.error := None;
                         PublishRecord.data := row' |} call)
    end
  else (Ok tt, call).

(** The callback of [publishFile] on the rows the reader resolved with. *)
Fixpoint publishFile (data : list (list string)) (call : Call.t)
    : result unit * Call.t :=
  match data with
  | [] => (Ok tt, call)
  | row :: rest =>
      match publishRow row call with
      | (TypeError, call') => (TypeError, call')
      | (Ok _, call') => publishFile rest call'
      end
  end.

(** [Publish] starts one [publishFile] per path of [settings] and ends the
    call when all their promises are resolved.  Each callback runs when its
    file has been read: [completion] lists the paths in the order in which
    the reads complete, and [read] gives the rows of a path. *)
Fixpoint runCallbacks (read : string -> list (list string))
    (completion : list string) (call : Call.t) : bool * Call.t :=
  match completion with
  | [] => (true, call)
  | filepath :: rest =>
      match publishFile (read filepath) call with
      | (Ok _, call') => runCallbacks read rest call'
      | (TypeError, call') =>
          let (_, call'') := runCallbacks read rest call' in (false, call'')
      end
  end.

Definition files (call : Call.t) : list string :=
  split "," (Request.settings (Call.request call)).

Definition Publish (read : string -> list (list string))
    (completion : list string) (call : Call.t) : Call.t :=
  match runCallbacks read completion call with
  | (true, call') => Call.end_ call'
  | (false, call') => call'
  end.

(** The completion orders [Publish] can meet: every started read completes
    once. *)
Definition schedule (call : Call.t) (completion : list string) : Prop :=
  Permutation (files call) completion.

End WithEngine.
End Permissive.

(* ------------------------------------------------------------------ *)
(** ** plugin/node/utils.js: the first row decides, no [t] and [f] *)
(* ------------------------------------------------------------------ *)

Module Strict.
Import Js Utils.

Section WithEngine.
Context `{Engine}.

Definition getType (property : string) : string :=
  if negb (isNaN_Number property) then
    if (indexOf property "." =? -1)%Z then "integer" else "number"
  else if String.eqb (toLowerCase property) "true"
          || String.eqb (toLowerCase property) "false" then "boolean"
  else match Date_parse property with
       | Some _ => "datetime"
       | None => "string"
       end.

Definition convertToType (data : string) (type : string) : value :=
  if String.eqb type "integer" then VNumber (parseInt data)
  else if String.eqb type "number" then VNumber (parseFloat data)
  else if String.eqb type "boolean" then
    VBoolean (String.eqb (toLowerCase data) "true"
              || String.eqb (toLowerCase data) "false")
  else if String.eqb type "datetime" then
    VDate (setUTCHours0 (Date_parse data))
  else if String.eqb type "string" then VString data
  else VUndefined.

(** The loop over [keys]: [values[i]] is [row]'s own value at [i]. *)
Definition firstRowProperties (row : Row) : list Property.t :=
  map (fun kv => {| Property.name := fst kv;
                    Property.type := getType (snd kv) |}) row.

Definition getSchema (filepath : string) (data : list Row)
    (knownSchemas : list Schema.t) : result Schema.t * list Schema.t :=
  match data with
  | [] => (TypeError, knownSchemas)
  | row :: _ =>
      let keys := Object_keys row in
      let schema := {| Schema.name := schemaName filepath;
                       Schema.settings := [filepath];
                       Schema.properties := firstRowProperties row |} in
      let (output, knownSchemas') :=
        checkKnownSchemas schema keys knownSchemas in
      (Ok output, knownSchemas')
  end.

End WithEngine.
End Strict.

(* ------------------------------------------------------------------ *)
(** ** host.go: the start of the plugin *)
(* ------------------------------------------------------------------ *)

Module Host.
Import Js.

(** [strconv.Atoi] on a 64-bit [int]: an optional sign, one decimal digit
    or more, nothing else, the value within the range of [int]; [None] for
    a non-nil [err]. *)
Fixpoint digitsValue (acc : Z) (l : list ascii) : option Z :=
  match l with
  | [] => Some acc
  | c :: r =>
      if isDecimalDigit c
      then digitsValue (10 * acc + (Z.of_N (code c) - 48))%Z r
      else None
  end.

Definition Atoi (s : string) : option Z :=
  match chars s with
  | [] => None
  | c :: r =>
      let neg := (code c =? 45)%N in
      let ds := if ((code c =? 43) || (code c =? 45))%N then r else c :: r in
      match ds with
      | [] => None
      | _ =>
          match digitsValue 0%Z ds with
          | None => None
          | Some n =>
              let v := if neg then (- n)%Z else n in
              if ((- 2 ^ 63 <=? v) && (v <? 2 ^ 63))%Z then Some v else None
          end
      end
  end.

(** What [cmd.Wait()] returns in [monitorExit]: [nil], an [*exec.ExitError]
    whose [Sys()] is a wait status with an exit status or is not one, or
    another error. *)
Inductive WaitResult : Type :=
| WaitNil
| WaitExitError (status : option Z)
| WaitOtherError.

(** The three watches of [main]; the one that resolves first decides.
    [Line text] is the first line of the plugin's output, as
    [scanner.Text()] gives it, read before the two others resolved. *)
Inductive Event : Type :=
| Timeout
| PluginExit (w : WaitResult)
| Line (text : string).

(** How the start ends: [log.Fatalf] (the message is logged and the host
    exits with status 1), [os.Exit code], or the tests run on a port. *)
Inductive Outcome : Type :=
| Fatal
| Exit (code : Z)
| RunTests (port : Z).

(** [monitorStdout] up to its send on [portCh]. *)
Definition monitorStdout (text : string) : Outcome + Z :=
  match Atoi text with
  | None => inl Fatal
  | Some port => inr port
  end.

(** [monitorExit] up to its first send on [exitCh]. *)
Definition monitorExit (w : WaitResult) : Outcome + Z :=
  match w with
  | WaitExitError (Some status) => inr status
  | WaitExitError None => inr 0%Z
  | _ => inl Fatal
  end.

(** The [select] of [main] on the first event. *)
Definition main (e : Event) : Outcome :=
  match e with
  | Timeout => Fatal
  | PluginExit w =>
      match monitorExit w with
      | inl o => o
      | inr exitCode => if (exitCode =? 0)%Z then Exit exitCode else Fatal
      end
  | Line text =>
      match monitorStdout text with
      | inl o => o
      | inr port => RunTests port
      end
  end.

End Host.

(* ------------------------------------------------------------------ *)
(** ** An engine to run the examples on *)
(* ------------------------------------------------------------------ *)

Module Sample.
Import Js.

(** A parsed number is kept as the call that yields it. *)
Inductive num : Type :=
| ParseInt (s : string)
| ParseFloat (s : string).

Definition digit (c : ascii) : option Z :=
  if isDecimalDigit c then Some (Z.of_N (code c) - 48)%Z else None.

Definition isLeap (y : Z) : bool :=
  ((y mod 4 =? 0) && negb (y mod 100 =? 0) || (y mod 400 =? 0))%Z.

Definition daysInMonth (y m : Z) : Z :=
  if (m =? 2)%Z then (if isLeap y then 29 else 28)%Z
  else if ((m =? 4) || (m =? 6) || (m =? 9) || (m =? 11))%Z then 30%Z
  else 31%Z.

(** Days from 1970-01-01 to the civil date [y-m-d]. *)
Definition daysFromCivil (y m d : Z) : Z :=
  let y' := if (m <=? 2)%Z then (y - 1)%Z else y in
  let era := (y' / 400)%Z in
  let yoe := (y' - era * 400)%Z in
  let mp := ((m + 9) mod 12)%Z in
  let doy := ((153 * mp + 2) / 5 + d - 1)%Z in
  let doe := (yoe * 365 + yoe / 4 - yoe / 100 + doy)%Z in
  (era * 146097 + doe - 719468)%Z.

(** Only the date form [YYYY-MM-DD] of a day that exists is read; it
    denotes midnight UTC. *)
Definition parseDate (s : string) : option Z :=
  match map digit (chars s) with
  | [Some y1; Some y2; Some y3; Some y4; None;
     Some m1; Some m2; None; Some d1; Some d2] =>
      let y := (1000 * y1 + 100 * y2 + 10 * y3 + y4)%Z in
      let m := (10 * m1 + m2)%Z in
      let d := (10 * d1 + d2)%Z in
      if String.eqb (substring 4 1 s) "-" && String.eqb (substring 7 1 s) "-"
         && (1 <=? m)%Z && (m <=? 12)%Z && (1 <=? d)%Z
         && (d <=? daysInMonth y m)%Z
      then Some (msPerDay * daysFromCivil y m d)%Z
      else None
  | _ => None
  end.

#[export] Instance engine : Engine := {
  number := num;
  parseInt := ParseInt;
  parseFloat := ParseFloat;
  Date_parse := parseDate
}.

(** The schema of the host's [animals] test and a call publishing it. *)
Definition animals : list Property.t :=
  [ {| Property.name := "id"; Property.type := "integer" |};
    {| Property.name := "name"; Property.type := "string" |};
    {| Property.name := "extinct"; Property.type := "boolean" |};
    {| Property.name := "last spotted"; Property.type := "datetime" |} ].

Definition call (settings : string) (properties : list Property.t)
    : Call.t :=
  {| Call.request := {| Request.settings := settings;
                        Request.properties := properties |};
     Call.written := [];
     Call.ended := false |}.

(** Two files of one row each. *)
Definition twoFiles (filepath : string) : list (list string) :=
  if String.eqb filepath "a.csv" then [["1"]] else [["2"]].

Definition idOnly : list Property.t :=
  [ {| Property.name := "id"; Property.type := "integer" |} ].

(** A file of ten rows, nine of them with a number as [id]. *)
Definition tenRows : list Utils.Row :=
  map (fun id => [("id", id)])
      ["1"; "2"; "3"; "4"; "x"; "6"; "7"; "8"; "9"; "10"].

(** The valid record of a row whose only cell is [id]. *)
Definition validId (id : string) : PublishRecord.t :=
  {| PublishRecord.invalid := false;
     PublishRecord.error := None;
     PublishRecord.data := [VNumber (ParseInt id)] |}.

End Sample.

(* ------------------------------------------------------------------ *)
(** ** The vocabulary of the properties *)
(* ------------------------------------------------------------------ *)

Module Props.
Import Js Utils.

(** The five type names, highest priority first. *)
Definition typeNames : list string :=
  ["integer"; "number"; "boolean"; "datetime"; "string"].

Definition parsesAsNumber (s : string) : Prop := isNaN_Number s = false.

Definition hasDot (s : string) : Prop := In "."%char (chars s).

Definition strictWords : list string := ["true"; "false"].
Definition permissiveWords : list string := ["true"; "false"; "t"; "f"].

(** [s] is one of [words], whatever the case of its letters. *)
Definition isWord (words : list string) (s : string) : Prop :=
  In (toLowerCase s) words.

Definition parsesAsDate `{Engine} (s : string) : Prop := Date_parse s <> None.

(** First match wins: what a classifier [getType] does on [s] when its
    boolean words are [words]. *)
Definition firstMatch `{Engine} (getType : string -> string)
    (words : list string) (s : string) : Prop :=
  In (getType s) typeNames
  /\ (getType s = "integer" <-> parsesAsNumber s /\ ~ hasDot s)
  /\ (getType s = "number" <-> parsesAsNumber s /\ hasDot s)
  /\ (getType s = "boolean" <-> ~ parsesAsNumber s /\ isWord words s)
  /\ (getType s = "datetime" <->
      ~ parsesAsNumber s /\ ~ isWord words s /\ parsesAsDate s)
  /\ (getType s = "string" <->
      ~ parsesAsNumber s /\ ~ isWord words s /\ ~ parsesAsDate s).


(** The two results of [checkValidTypes]. *)
Definition valid : ValidCheck.t :=
  {| ValidCheck.error := None;
     ValidCheck.index := None;
     ValidCheck.invalid := false |}.

Definition invalidAt (i : nat) (expected got : string) : ValidCheck.t :=
  {| ValidCheck.error := Some (mismatch expected got);
     ValidCheck.index := Some i;
     ValidCheck.invalid := true |}.

(** [s.includes(w)], and the decimal numeral of an index. *)
Definition includes (s w : string) : bool :=
  match String.index 0 w s with
  | Some _ => true
  | None => false
  end.

Definition decimal (n : nat) : string :=
  DecimalString.NilEmpty.string_of_uint (Nat.to_uint n).

Section WithEngine.
Context `{Engine}.

(** [call] after [records] were written to it. *)
Definition appendTo (call : Call.t) (records : list PublishRecord.t)
    : Call.t :=
  {| Call.request := Call.request call;
     Call.written := Call.written call ++ records;
     Call.ended := Call.ended call |}.

(** A fresh call for a request. *)
Definition freshCall (request : Request.t) : Call.t :=
  {| Call.request := request; Call.written := []; Call.ended := false |}.

(** What one row, one file put on a fresh stream. *)
Definition rowRecords (request : Request.t) (row : list string)
    : list PublishRecord.t :=
  Call.written (snd (Permissive.publishRow row (freshCall request))).

Definition fileRecords (request : Request.t) (data : list (list string))
    : list PublishRecord.t :=
  flat_map (rowRecords request) data.

(** A row with as many cells as the schema has properties. *)
Definition wellFormed (request : Request.t) (row : list string) : bool :=
  (List.length row =? List.length (Request.properties request))%nat.

Definition wellFormedRows (request : Request.t)
    (data : list (list string)) : nat :=
  List.length (filter (wellFormed request) data).

(** The values of column [j] in the rows that have it, how many of them
    the classifier gives the type [type], and the place of a type in the
    priority order. *)
Definition column (j : nat) (data : list Row) : list string :=
  flat_map (fun row => match nth_error (Object_values row) j with
                       | Some v => [v]
                       | None => []
                       end) data.

Definition tally (type : string) (col : list string) : nat :=
  count_occ string_dec (map Permissive.getType col) type.

Fixpoint position (type : string) (names : list string) : nat :=
  match names with
  | [] => O
  | n :: rest => if String.eqb n type then O else S (position type rest)
  end.

Definition rank (type : string) : nat := position type typeNames.

(** [type] wins the vote on [col]: no type has a higher tally, and the
    types that have the same tally come later in the priority order. *)
Definition wins (type : string) (col : list string) : Prop :=
  In type typeNames
  /\ forall other, In other typeNames ->
       (tally other col <= tally type col)%nat
       /\ (tally other col = tally type col -> (rank type <= rank other)%nat).

(** Counter [k] of column [c] in a [typeCountArray], and what a value adds
    to counter [k]. *)
Definition counter (typeCountArray : list (list nat)) (c k : nat) : nat :=
  match nth_error typeCountArray c with
  | Some counts => nth k counts O
  | None => O
  end.

Definition hit (k : nat) (v : option string) : nat :=
  match v with
  | Some v =>
      match Permissive.counterOf (Permissive.getType v) with
      | Some k' => if (k' =? k)%nat then 1%nat else O
      | None => O
      end
  | None => O
  end.

Definition hits (c k : nat) (data : list Row) : nat :=
  list_sum (map (fun row => hit k (nth_error (Object_values row) c)) data).

End WithEngine.

End Props.

(* ------------------------------------------------------------------ *)
(** ** plugin.js: Discover *)
(* ------------------------------------------------------------------ *)

Module Plugin.
Import Js Utils.

(** [areEqualArray] on two arrays of properties: [JSON.stringify] writes
    each property as its [name] and its [type], in that order. *)
Definition sameProperty (p q : Property.t) : bool :=
  String.eqb (Property.name p) (Property.name q)
  && String.eqb (Property.type p) (Property.type q).

Fixpoint areEqualProperties (a b : list Property.t) : bool :=
  match a, b with
  | [], [] => true
  | p :: a', q :: b' => sameProperty p q && areEqualProperties a' b'
  | _, _ => false
  end.

(** What [output[j].settings.push(values[i].settings[0])] adds.  Every
    schema of [getSchema] has one path in [settings]; without any the push
    would add undefined, which a list of paths does not hold. *)
Definition firstSetting (value : Schema.t) : list string :=
  firstn 1 (Schema.settings value).

(** The loop over [output]: the first schema with the properties of
    [value] receives its path; [None] when [found] stays false. *)
Fixpoint pushSetting (value : Schema.t) (output : list Schema.t)
    : option (list Schema.t) :=
  match output with
  | [] => None
  | o :: rest =>
      if areEqualProperties (Schema.properties o) (Schema.properties value)
      then Some ({| Schema.name := Schema.name o;
                    Schema.settings := Schema.settings o ++ firstSetting value;
                    Schema.properties := Schema.properties o |} :: rest)
      else match pushSetting value rest with
           | Some rest' => Some (o :: rest')
           | None => None
           end
  end.

(** One turn of the loop over [values]. *)
Definition mergeValue (output : list Schema.t) (value : Schema.t)
    : list Schema.t :=
  match output with
  | [] => [value]
  | _ => match pushSetting value output with
         | Some output' => output'
         | None => output ++ [value]
         end
  end.

(** The callback of [Promise.all]: [output] as handed to [callback]. *)
Definition mergeValues (values : list Schema.t) : list Schema.t :=
  fold_left mergeValue values [].

Section WithEngine.
Context `{Engine}.

(** The callbacks of the [getSchema] promises run one after the other, in
    the order in which the reads complete; [read] gives the rows of a path
    in the JSON output mode.  Each path comes with what its promise
    resolved with. *)
Fixpoint runGetSchema (read : string -> list Row) (completion : list string)
    (knownSchemas : list Schema.t)
    : list (string * result Schema.t) * list Schema.t :=
  match completion with
  | [] => ([], knownSchemas)
  | filepath :: rest =>
      let (r, knownSchemas') :=
        Permissive.getSchema filepath (read filepath) knownSchemas in
      let (rs, knownSchemas'') := runGetSchema read rest knownSchemas' in
      ((filepath, r) :: rs, knownSchemas'')
  end.

(** [Promise.all]: the values in the order of [files]; nothing when a
    promise stays pending. *)
Fixpoint valueOf (filepath : string)
    (results : list (string * result Schema.t)) : option Schema.t :=
  match results with
  | [] => None
  | (f, r) :: rest =>
      if String.eqb f filepath then
        match r with
        | Ok schema => Some schema
        | TypeError => None
        end
      else valueOf filepath rest
  end.

Fixpoint allValues (files : list string)
    (results : list (string * result Schema.t)) : option (list Schema.t) :=
  match files with
  | [] => Some []
  | f :: rest =>
      match valueOf f results, allValues rest results with
      | Some v, Some vs => Some (v :: vs)
      | _, _ => None
      end
  end.

(** [Discover] on the paths the glob found (each once): the schemas handed
    to [callback], [None] when it is never called, and the names and
    properties of [knownSchemas] afterwards.  (When an answered schema is
    the object that was put into [knownSchemas], the pushes of the merge
    reach its [settings] there as well; no code reads the [settings] of a
    known schema.) *)
Definition Discover (read : string -> list Row) (files completion : list string)
    (knownSchemas : list Schema.t)
    : option (list Schema.t) * list Schema.t :=
  let (results, knownSchemas') :=
    runGetSchema read completion knownSchemas in
  (option_map mergeValues (allValues files results), knownSchemas').

End WithEngine.
End Plugin.

(* ------------------------------------------------------------------ *)
(** ** plugin/node/utils.js: publishFile of the first version *)
(* ------------------------------------------------------------------ *)

Module StrictPublish.
Import Js Utils.

Section WithEngine.
Context `{Engine}.

Fixpoint checkValidTypes_from (i : nat) (properties : list string)
    (types : list Property.t) : result ValidCheck.t :=
  match properties with
  | [] => Ok {| ValidCheck.error := None;
                ValidCheck.index := None;
                ValidCheck.invalid := false |}
  | p :: rest =>
      let type := Strict.getType p in
      match nth_error types i with
      | None => TypeError
      | Some ti =>
          if negb (String.eqb type (Property.type ti)) then
            Ok {| ValidCheck.error := Some (mismatch (Property.type ti) type);
                  ValidCheck.index := Some i;
                  ValidCheck.invalid := true |}
          else checkValidTypes_from (S i) rest types
      end
  end.

Definition checkValidTypes (properties : list string)
    (types : list Property.t) : result ValidCheck.t :=
  checkValidTypes_from 0 properties types.

Fixpoint convertCells (j : nat) (row : list string) (types : list string)
    (index : option nat) : list value :=
  match row with
  | [] => []
  | cell :: rest =>
      (if match index with Some i => negb (j =? i)%nat | None => true end
       then match nth_error types j with
            | Some type => Strict.convertToType cell type
            | None => VUndefined
            end
       else VString cell)
      :: convertCells (S j) rest types index
  end.

(** One turn of the row loop: no test on the length of the row. *)
Definition publishRow (row : list string) (call : Call.t)
    : result unit * Call.t :=
  let schema := Call.request call in
  let types := getPropertyTypes (Request.properties schema) in
  match checkValidTypes row (Request.properties schema) with
  | TypeError => (TypeError, call)
  | Ok validCheck =>
      let row' := convertCells 0 row types (ValidCheck.index validCheck) in
      if ValidCheck.invalid validCheck then
        let row'' := match ValidCheck.index validCheck with
                     | Some i => setAt i VNull row'
                     | None => row'
                     end in
        (Ok tt,
         Call.write {| PublishRecord.invalid := true;
                       PublishRecord.error := ValidCheck.error validCheck;
                       PublishRecord.data := row'' |} call)
      else
        (Ok tt,
         Call.write {| PublishRecord.invalid := false;
                       PublishRecord.error := None;
                       PublishRecord.data := row' |} call)
  end.

(** The callback of [publishFile]: a throw ends it. *)
Fixpoint publishFile (data : list (list string)) (call : Call.t)
    : result unit * Call.t :=
  match data with
  | [] => (Ok tt, call)
  | row :: rest =>
      match publishRow row call with
      | (TypeError, call') => (TypeError, call')
      | (Ok _, call') => publishFile rest call'
      end
  end.

End WithEngine.
End StrictPublish.

(* ------------------------------------------------------------------ *)
(** ** host.go: scoring the answers of the plugin *)
(* ------------------------------------------------------------------ *)

Module HostTests.

(** The loop of [checkSchema] once the lengths are equal. *)
Fixpoint checkProperties (want have : list Property.t)
    (namesMatch typesMatch : bool) : bool * bool :=
  match want, have with
  | pw :: want', ph :: have' =>
      checkProperties want' have'
        (namesMatch && String.eqb (Property.name pw) (Property.name ph))
        (typesMatch && String.eqb (Property.type pw) (Property.type ph))
  | _, _ => (namesMatch, typesMatch)
  end.

(** [checkSchema]: only the properties of the two schemas are read. *)
Definition checkSchema (want have : Schema.t) : bool * bool :=
  if negb (List.length (Schema.properties want)
           =? List.length (Schema.properties have))%nat
  then (false, false)
  else checkProperties (Schema.properties want) (Schema.properties have)
         true true.

Fixpoint checkSchemaIn (want : Schema.t) (in_ : list Schema.t)
    : bool * bool :=
  match in_ with
  | [] => (false, false)
  | found :: rest =>
      let (namesMatch, typesMatch) := checkSchema want found in
      if namesMatch then (namesMatch, typesMatch)
      else checkSchemaIn want rest
  end.

(** [findSchemaIn]: [None] for [nil]. *)
Fixpoint findSchemaIn (want : Schema.t) (in_ : list Schema.t)
    : option Schema.t :=
  match in_ with
  | [] => None
  | found :: rest =>
      if fst (checkSchema want found) then Some found
      else findSchemaIn want rest
  end.

(** What [json.Unmarshal] puts into an [interface{}]; [float64] stands for
    the doubles and [floatEq] for their [==].  The content of an array or
    of an object plays no part in what follows and is left out. *)
Section Records.
Variable float64 : Type.
Variable floatEq : float64 -> float64 -> bool.

Inductive json : Type :=
| JNil
| JBool (b : bool)
| JFloat (x : float64)
| JString (s : string)
| JArray
| JObject.

(** [a == b] on two interface values: [None] for the run-time panic on
    two values of a type that cannot be compared. *)
Definition same (a b : json) : option bool :=
  match a, b with
  | JNil, JNil => Some true
  | JBool x, JBool y => Some (Bool.eqb x y)
  | JFloat x, JFloat y => Some (floatEq x y)
  | JString x, JString y => Some (String.eqb x y)
  | JArray, JArray => None
  | JObject, JObject => None
  | _, _ => Some false
  end.

(** A received record: [Invalid] and the decoded [Data] ([nil] when
    [json.Unmarshal] failed, its error being dropped). *)
Record received : Type := {
  Invalid : bool;
  data : list json
}.

Record recordCheck : Type := {
  matchIndex : Z;
  matchValue : json;
  isBonus : bool;
  shouldBeInvalid : bool;
  match_ : option received
}.

Definition requiredRecordCheck (index : Z) (value : json) : recordCheck :=
  {| matchIndex := index; matchValue := value; isBonus := false;
     shouldBeInvalid := false; match_ := None |}.

Definition bonusRecordCheck (index : Z) (value : json) (invalid : bool)
    : recordCheck :=
  {| matchIndex := index; matchValue := value; isBonus := true;
     shouldBeInvalid := invalid; match_ := None |}.

(** [data[i]]: [None] for the index-out-of-range panic. *)
Definition at_ (l : list json) (i : Z) : option json :=
  if (i <? 0)%Z then None else nth_error l (Z.to_nat i).

(** [expectedRecords.evaluate]: [None] when the host panics. *)
Fixpoint evaluate (r : list recordCheck) (record : received)
    : option (list recordCheck) :=
  match r with
  | [] => Some []
  | expected :: rest =>
      match at_ (data record) (matchIndex expected) with
      | None => None
      | Some cell =>
          match same cell (matchValue expected) with
          | None => None
          | Some hit =>
              let expected' :=
                if hit then {| matchIndex := matchIndex expected;
                               matchValue := matchValue expected;
                               isBonus := isBonus expected;
                               shouldBeInvalid := shouldBeInvalid expected;
                               match_ := Some record |}
                else expected in
              match evaluate rest record with
              | None => None
              | Some rest' => Some (expected' :: rest')
              end
          end
      end
  end.

(** The receive loop of [execute] on the records of a stream. *)
Fixpoint evaluateAll (r : list recordCheck) (records : list received)
    : option (list recordCheck) :=
  match records with
  | [] => Some r
  | record :: rest =>
      match evaluate r record with
      | None => None
      | Some r' => evaluateAll r' rest
      end
  end.

(** [ok] of [recordCheck.result]. *)
Definition result_ok (r : recordCheck) : bool :=
  match match_ r with
  | None => false
  | Some m => if shouldBeInvalid r then Invalid m else true
  end.

End Records.

Arguments JNil {float64}.
Arguments JBool {float64} b.
Arguments JFloat {float64} x.
Arguments JString {float64} s.
Arguments JArray {float64}.
Arguments JObject {float64}.
Arguments same {float64} floatEq a b.
Arguments Invalid {float64} r.
Arguments data {float64} r.
Arguments matchIndex {float64} r.
Arguments matchValue {float64} r.
Arguments isBonus {float64} r.
Arguments shouldBeInvalid {float64} r.
Arguments match_ {float64} r.
Arguments requiredRecordCheck {float64} index value.
Arguments bonusRecordCheck {float64} index value invalid.
Arguments at_ {float64} l i.
Arguments evaluate {float64} floatEq r record.
Arguments evaluateAll {float64} floatEq r records.
Arguments result_ok {float64} r.

End HostTests.

(* ------------------------------------------------------------------ *)
(** ** The vocabulary of the properties of Discover *)
(* ------------------------------------------------------------------ *)

Module DiscoverProps.
Import Js Utils.

(** A file with a first row and no row wider than it. *)
Definition readable (read : string -> list Row) (f : string) : Prop :=
  exists row rest,
    read f = row :: rest
    /\ Forall (fun r : Row => (List.length r <= List.length row)%nat) rest.

(** What a resolved schema is, given the known schemas at the end: it
    carries its path, has the keys of the first row of its file as property
    names, and the name and properties of a known schema. *)
Definition resolved (read : string -> list Row) (knownSchemas : list Schema.t)
    (fr : string * result Schema.t) : Prop :=
  exists s k,
    snd fr = Ok s
    /\ Schema.settings s = [fst fr]
    /\ getPropertyNames (Schema.properties s)
       = Object_keys (hd [] (read (fst fr)))
    /\ In k knownSchemas
    /\ Schema.name s = Schema.name k
    /\ Schema.properties s = Schema.properties k.

End DiscoverProps.

(* ------------------------------------------------------------------ *)
(** ** host.go: the scanner of [monitorStdout] *)
(* ------------------------------------------------------------------ *)

(** [monitorStdout] reads the port with a [bufio.Scanner] on the standard
    output of the plugin: one [scanner.Scan()], whose result it does not
    look at, and [scanner.Text()].  The scanner splits with
    [bufio.ScanLines]: a token is the bytes before the first newline, or
    all the bytes left when the output ends without one, less one carriage
    return at its end. *)
Module HostScan.
Import Js.

(** [bufio.MaxScanTokenSize], the size the buffer of the scanner grows to. *)
Definition MaxScanTokenSize : Z := 65536.

(** [dropCR]: a carriage return at the end of [data] is dropped, one only. *)
Fixpoint dropCR (data : list ascii) : list ascii :=
  match data with
  | [] => []
  | c :: r =>
      match r with
      | [] => if (code c =? 13)%N then [] else [c]
      | _ :: _ => c :: dropCR r
      end
  end.

(** The bytes before the first newline, all of them when there is none. *)
Fixpoint firstLine (data : list ascii) : list ascii :=
  match data with
  | [] => []
  | c :: r => if (code c =? 10)%N then [] else c :: firstLine r
  end.

(** [scanner.Text()] after the first [scanner.Scan()], where [output] is
    what the plugin has written on its standard output when [Scan]
    returns: up to a newline, or all of it when the output has ended.
    [Scan] gives no token, and [Text] the empty text, when there is no
    byte at all or when the buffer is full before a newline comes. *)
Definition Text (output : string) : string :=
  let line := firstLine (chars output) in
  if (Z.of_nat (List.length line) <? MaxScanTokenSize)%Z
  then text (dropCR line)
  else EmptyString.

End HostScan.

(* ------------------------------------------------------------------ *)
(** ** Lemmas on the built-ins *)
(* ------------------------------------------------------------------ *)

Import Js Utils Props.

Lemma indexOf_from_spec (c : ascii) (s : string) (i : Z) :
  (0 <= i)%Z ->
  (indexOf_from i c s = (-1)%Z <-> ~ In c (chars s))
  /\ (indexOf_from i c s = (-1)%Z \/ (i <= indexOf_from i c s)%Z).
Proof.
  revert i; induction s as [|a r IH]; intros i Hi; simpl.
  - split; [tauto | now left].
  - destruct (Ascii.eqb_spec a c) as [->|Hne].
    + split; [|right; lia]. split; [lia | intros Hn; exfalso; apply Hn; now left].
    + destruct (IH (i + 1)%Z ltac:(lia)) as [Hiff Hrange]. split.
      * rewrite Hiff. unfold chars in *. split.
        -- intros Hn [Heq|Hin]; [now apply Hne | now apply Hn].
        -- intros Hn Hin. apply Hn. now right.
      * destruct Hrange as [->|Hle]; [now left | right; lia].
Qed.

Lemma indexOf_none (s : string) :
  (indexOf s "." =? -1)%Z = true <-> ~ hasDot s.
Proof.
  unfold indexOf, hasDot. rewrite Z.eqb_eq.
  apply (indexOf_from_spec "." s 0). lia.
Qed.

Lemma indexOf_some (s : string) :
  (indexOf s "." =? -1)%Z = false <-> hasDot s.
Proof.
  destruct (indexOf s "." =? -1)%Z eqn:E.
  - apply indexOf_none in E. split; [discriminate | tauto].
  - split; [intros _ | reflexivity].
    destruct (in_dec ascii_dec "."%char (chars s)) as [Hin|Hn]; [exact Hin|].
    apply indexOf_none in Hn. congruence.
Qed.

Lemma isWord_permissive (s : string) :
  String.eqb (toLowerCase s) "true" || String.eqb (toLowerCase s) "false"
  || String.eqb (toLowerCase s) "t" || String.eqb (toLowerCase s) "f" = true
  <-> isWord permissiveWords s.
Proof.
  unfold isWord, permissiveWords. simpl.
  rewrite !orb_true_iff, !String.eqb_eq. intuition congruence.
Qed.

Lemma isWord_strict (s : string) :
  String.eqb (toLowerCase s) "true" || String.eqb (toLowerCase s) "false"
  = true <-> isWord strictWords s.
Proof.
  unfold isWord, strictWords. simpl.
  rewrite !orb_true_iff, !String.eqb_eq. intuition congruence.
Qed.

(** The cascade of [getType] on the outcome of its four tests. *)
Lemma cascade_firstMatch `{Engine} (getType : string -> string)
    (words : list string) (s : string) (w : bool) :
  (w = true <-> isWord words s) ->
  getType s =
    (if negb (isNaN_Number s) then
       if (indexOf s "." =? -1)%Z then "integer" else "number"
     else if w then "boolean"
     else match Date_parse s with Some _ => "datetime" | None => "string" end) ->
  firstMatch getType words s.
Proof.
  intros Hw Hg. unfold firstMatch, parsesAsNumber, parsesAsDate.
  rewrite Hg. clear Hg.
  pose proof (indexOf_none s) as Hd0. pose proof (indexOf_some s) as Hd1.
  destruct (isNaN_Number s); simpl;
    destruct (indexOf s "." =? -1)%Z; simpl;
    destruct w; simpl;
    destruct (Date_parse s); simpl;
    repeat split; intros;
    try discriminate; try tauto;
    try (intuition (discriminate || congruence)).
Qed.

(** *** White space *)









Section Classifier.
Context `{Engine}.

Lemma permissive_firstMatch (s : string) :
  firstMatch Permissive.getType permissiveWords s.
Proof.
  eapply cascade_firstMatch; [apply isWord_permissive | reflexivity].
Qed.

Lemma strict_firstMatch (s : string) :
  firstMatch Strict.getType strictWords s.
Proof.
  eapply cascade_firstMatch; [apply isWord_strict | reflexivity].
Qed.



(** C1. Both versions of [getType] give every text exactly one of the
    five type names, the first that matches in the order integer (a number
    without a dot), number (a number with a dot), boolean (one of the
    words, whatever the case), datetime ([Date.parse] succeeds), string.
    The text 5 is an integer, 5.0 a number, true and false booleans, and
    with the larger word set so are t and f. *)
Theorem getType_first_match (s : string) :
  firstMatch Permissive.getType permissiveWords s
  /\ firstMatch Strict.getType strictWords s
  /\ Permissive.getType "5" = "integer" /\ Strict.getType "5" = "integer"
  /\ Permissive.getType "5.0" = "number" /\ Strict.getType "5.0" = "number"
  /\ Permissive.getType "true" = "boolean"
  /\ Strict.getType "true" = "boolean"
  /\ Permissive.getType "false" = "boolean"
  /\ Strict.getType "false" = "boolean"
  /\ Permissive.getType "t" = "boolean" /\ Permissive.getType "f" = "boolean".
Proof.
  split; [apply permissive_firstMatch|].
  split; [apply strict_firstMatch|].
  repeat split; reflexivity.
Qed.

(** C9. Converting to boolean yields whether the text is one of the
    boolean words, not what the word says: true, false and (with the larger
    word set) f all give [true], any other text gives [false]. *)
Theorem convert_boolean_is_membership (data : string) :
  (exists b, Permissive.convertToType data "boolean" = VBoolean b
             /\ (b = true <-> isWord permissiveWords data))
  /\ (exists b, Strict.convertToType data "boolean" = VBoolean b
                /\ (b = true <-> isWord strictWords data))
  /\ Permissive.convertToType "true" "boolean" = VBoolean true
  /\ Permissive.convertToType "false" "boolean" = VBoolean true
  /\ Permissive.convertToType "f" "boolean" = VBoolean true
  /\ Strict.convertToType "true" "boolean" = VBoolean true
  /\ Strict.convertToType "false" "boolean" = VBoolean true.
Proof.
  split; [|split].
  - eexists. split; [reflexivity | apply isWord_permissive].
  - eexists. split; [reflexivity | apply isWord_strict].
  - repeat split; reflexivity.
Qed.


End Classifier.

#[local] Existing Instance Sample.engine.

Lemma getType_first_match_witness :
  Permissive.getType "1796-07-23" = "datetime"
  /\ Strict.getType "blue" = "string".
Proof.
  destruct (getType_first_match "1796-07-23") as [[_ [_ [_ [_ [Hd _]]]]] _].
  destruct (getType_first_match "blue") as [_ [[_ [_ [_ [_ [_ Hs]]]]] _]].
  split.
  - apply Hd. split; [|split].
    + vm_compute. discriminate.
    + unfold isWord. simpl. intuition discriminate.
    + vm_compute. discriminate.
  - apply Hs. split; [|split].
    + vm_compute. discriminate.
    + unfold isWord. simpl. intuition discriminate.
    + vm_compute. tauto.
Defined.

Lemma convert_boolean_is_membership_witness :
  exists b, Permissive.convertToType "blue" "boolean" = VBoolean b
            /\ (b = true <-> isWord permissiveWords "blue").
Proof.
  exact (proj1 (convert_boolean_is_membership (H := Sample.engine) "blue")).
Defined.


(* ------------------------------------------------------------------ *)
(** ** Publishing *)
(* ------------------------------------------------------------------ *)

Lemma setAt_length {A : Type} (i : nat) (v : A) (l : list A) :
  List.length (setAt i v l) = List.length l.
Proof.
  revert i; induction l as [|a l IH]; intros [|i]; simpl; auto.
Qed.

Lemma setAt_same {A : Type} (i : nat) (v : A) (l : list A) :
  (i < List.length l)%nat -> nth_error (setAt i v l) i = Some v.
Proof.
  revert i; induction l as [|a l IH]; intros [|i] Hi; simpl in *;
    try lia; auto. apply IH. lia.
Qed.

Lemma setAt_other {A : Type} (i k : nat) (v : A) (l : list A) :
  k <> i -> nth_error (setAt i v l) k = nth_error l k.
Proof.
  revert i k; induction l as [|a l IH]; intros [|i] [|k] Hk; simpl;
    try congruence; auto.
Qed.

Section Publishing.
Context `{Engine}.

Lemma checkValidTypes_from_valid (rest : list string) (i : nat)
    (types : list Property.t) :
  (forall k c, nth_error rest k = Some c ->
     exists ti, nth_error types (i + k) = Some ti
                /\ Permissive.getType c = Property.type ti) ->
  Permissive.checkValidTypes_from i rest types = Ok valid.
Proof.
  revert i; induction rest as [|p rest IH]; intros i Hall; simpl.
  - reflexivity.
  - destruct (Hall 0%nat p eq_refl) as [ti [Hti Heq]].
    rewrite Nat.add_0_r in Hti. rewrite Hti, Heq, String.eqb_refl. simpl.
    apply IH. intros k c Hk.
    replace (S i + k)%nat with (i + S k)%nat by lia. now apply Hall.
Qed.

Lemma checkValidTypes_from_mismatch (m : nat) :
  forall (rest : list string) (i : nat) (types : list Property.t)
         (cell : string) (tm : Property.t),
  nth_error rest m = Some cell ->
  nth_error types (i + m) = Some tm ->
  Permissive.getType cell <> Property.type tm ->
  (forall k c, (k < m)%nat -> nth_error rest k = Some c ->
     exists ti, nth_error types (i + k) = Some ti
                /\ Permissive.getType c = Property.type ti) ->
  Permissive.checkValidTypes_from i rest types
  = Ok (invalidAt (i + m) (Property.type tm) (Permissive.getType cell)).
Proof.
  induction m as [|m IH]; intros rest i types cell tm Hcell Htm Hne Hbefore;
    destruct rest as [|p rest]; try discriminate; simpl in *.
  - injection Hcell as ->. rewrite Nat.add_0_r in *. rewrite Htm.
    apply String.eqb_neq in Hne. rewrite Hne. reflexivity.
  - destruct (Hbefore 0%nat p ltac:(lia) eq_refl) as [ti [Hti Heq]].
    rewrite Nat.add_0_r in Hti. rewrite Hti, Heq, String.eqb_refl. simpl.
    replace (i + S m)%nat with (S i + m)%nat by lia.
    apply IH; auto.
    + now replace (S i + m)%nat with (i + S m)%nat by lia.
    + intros k c Hk Hc.
      replace (S i + k)%nat with (i + S k)%nat by lia.
      apply Hbefore; [lia | exact Hc].
Qed.

(** [checkValidTypes] does not throw on a row that is not longer than the
    schema. *)
Lemma checkValidTypes_from_total (rest : list string) (i : nat)
    (types : list Property.t) :
  (i + List.length rest <= List.length types)%nat ->
  exists validCheck,
    Permissive.checkValidTypes_from i rest types = Ok validCheck
    /\ (ValidCheck.invalid validCheck = true ->
        exists k, ValidCheck.index validCheck = Some k
                  /\ (k < i + List.length rest)%nat)
    /\ (ValidCheck.invalid validCheck = false ->
        ValidCheck.index validCheck = None).
Proof.
  revert i; induction rest as [|p rest IH]; intros i Hlen; simpl in *.
  - eexists. split; [reflexivity|]. simpl. split; [discriminate | reflexivity].
  - destruct (nth_error types i) as [ti|] eqn:Hti.
    + destruct (negb (Permissive.getType p =? Property.type ti)%string).
      * eexists. split; [reflexivity|]. simpl. split; [|discriminate].
        intros _. exists i. split; [reflexivity | lia].
      * destruct (IH (S i) ltac:(lia)) as [vc [Hvc [Hinv Hval]]].
        exists vc. split; [exact Hvc|]. split; [|exact Hval].
        intros Hi. destruct (Hinv Hi) as [k [Hk Hlt]].
        exists k. split; [exact Hk | lia].
    + apply nth_error_None in Hti. lia.
Qed.

Lemma convertCells_length (row : list string) (j : nat)
    (types : list string) (index : option nat) :
  List.length (Permissive.convertCells j row types index) = List.length row.
Proof.
  revert j; induction row as [|cell row IH]; intros j; simpl; auto.
Qed.

Lemma convertCells_nth (row : list string) :
  forall (j k : nat) (types : list string) (index : option nat)
         (cell type : string),
  nth_error row k = Some cell ->
  nth_error types (j + k) = Some type ->
  index <> Some (j + k)%nat ->
  nth_error (Permissive.convertCells j row types index) k
  = Some (Permissive.convertToType cell type).
Proof.
  induction row as [|c row IH]; intros j [|k] types index cell type Hc Ht Hi;
    simpl in *; try discriminate.
  - injection Hc as ->. rewrite Nat.add_0_r in *. rewrite Ht.
    destruct index as [i|]; [|reflexivity].
    destruct (Nat.eqb_spec j i) as [->|Hne]; [congruence | reflexivity].
  - apply IH; auto.
    + now replace (S j + k)%nat with (j + S k)%nat by lia.
    + now replace (S j + k)%nat with (j + S k)%nat by lia.
Qed.

End Publishing.

Section Streams.
Context `{Engine}.

Lemma appendTo_nil (call : Call.t) : appendTo call [] = call.
Proof.
  destruct call. unfold appendTo. simpl. now rewrite app_nil_r.
Qed.

Lemma appendTo_app (call : Call.t) (a b : list PublishRecord.t) :
  appendTo (appendTo call a) b = appendTo call (a ++ b).
Proof.
  unfold appendTo. simpl. now rewrite app_assoc.
Qed.

(** A row either writes nothing or one record, never throws when it is
    well formed, and looks at the call's request only. *)
Lemma publishRow_appends (row : list string) (call : Call.t) :
  Permissive.publishRow row call
  = (Ok tt, appendTo call (rowRecords (Call.request call) row))
  /\ List.length (rowRecords (Call.request call) row)
     = (if wellFormed (Call.request call) row then 1 else 0)%nat.
Proof.
  unfold rowRecords, wellFormed, Permissive.publishRow. simpl.
  unfold getPropertyTypes. rewrite length_map.
  destruct (Nat.eqb_spec (List.length row)
              (List.length (Request.properties (Call.request call))))
    as [Hlen|Hlen].
  - unfold Permissive.checkValidTypes.
    destruct (checkValidTypes_from_total row 0
                (Request.properties (Call.request call)))
      as [vc [Hvc _]]; [simpl; lia|].
    rewrite Hvc. destruct (ValidCheck.invalid vc); simpl; auto.
  - simpl. now rewrite appendTo_nil.
Qed.

Lemma publishFile_appends (data : list (list string)) :
  forall call : Call.t,
  Permissive.publishFile data call
  = (Ok tt, appendTo call (fileRecords (Call.request call) data)).
Proof.
  induction data as [|row rest IH]; intros call; simpl.
  - now rewrite appendTo_nil.
  - destruct (publishRow_appends row call) as [-> _].
    rewrite IH. simpl. now rewrite appendTo_app.
Qed.

Lemma runCallbacks_appends (read : string -> list (list string))
    (completion : list string) :
  forall call : Call.t,
  Permissive.runCallbacks read completion call
  = (true,
     appendTo call
       (flat_map (fun f => fileRecords (Call.request call) (read f))
                 completion)).
Proof.
  induction completion as [|f rest IH]; intros call; simpl.
  - now rewrite appendTo_nil.
  - rewrite publishFile_appends, IH. simpl. now rewrite appendTo_app.
Qed.

Lemma fileRecords_length (request : Request.t) (data : list (list string)) :
  List.length (fileRecords request data) = wellFormedRows request data.
Proof.
  unfold fileRecords, wellFormedRows.
  induction data as [|row rest IH]; simpl; [reflexivity|].
  rewrite length_app, IH.
  destruct (publishRow_appends row (freshCall request)) as [_ Hlen].
  simpl in Hlen. rewrite Hlen.
  destruct (wellFormed request row); reflexivity.
Qed.

Lemma flat_map_length_sum {A B : Type} (f : A -> list B) (l : list A) :
  List.length (flat_map f l) = list_sum (map (fun a => List.length (f a)) l).
Proof.
  induction l as [|a l IH]; simpl; [reflexivity|].
  now rewrite length_app, IH.
Qed.

Lemma list_sum_permutation (l l' : list nat) :
  Permutation l l' -> list_sum l = list_sum l'.
Proof.
  induction 1; simpl; lia.
Qed.

End Streams.

Section PublishTheorems.
Context `{Engine}.

(** C3, as the code has it. A published row with as many cells as the
    schema has properties is checked cell by cell from the left, each cell
    classified on its own.  If the first mismatch is at index [i], the
    record is invalid, its cell [i] is null, every other cell is converted
    per its declared type, and the error text names the expected and the
    observed type (the index is not in the text).  If no cell mismatches,
    the record is valid, without error, every cell converted. *)
Theorem publishRow_first_mismatch (call : Call.t) (row : list string) :
  let properties := Request.properties (Call.request call) in
  List.length row = List.length properties ->
  (forall i cell ti,
     nth_error row i = Some cell -> nth_error properties i = Some ti ->
     Permissive.getType cell <> Property.type ti ->
     (forall k c tk, (k < i)%nat ->
        nth_error row k = Some c -> nth_error properties k = Some tk ->
        Permissive.getType c = Property.type tk) ->
     exists data,
       Permissive.publishRow row call
       = (Ok tt,
          Call.write
            {| PublishRecord.invalid := true;
               PublishRecord.error :=
                 Some ("Expected type: " ++ Property.type ti
                       ++ " but got type: " ++ Permissive.getType cell)%string;
               PublishRecord.data := data |} call)
       /\ List.length data = List.length row
       /\ nth_error data i = Some VNull
       /\ (forall j c tj, j <> i ->
             nth_error row j = Some c -> nth_error properties j = Some tj ->
             nth_error data j
             = Some (Permissive.convertToType c (Property.type tj))))
  /\ ((forall k c tk,
         nth_error row k = Some c -> nth_error properties k = Some tk ->
         Permissive.getType c = Property.type tk) ->
      exists data,
        Permissive.publishRow row call
        = (Ok tt,
           Call.write
             {| PublishRecord.invalid := false;
                PublishRecord.error := None;
                PublishRecord.data := data |} call)
        /\ List.length data = List.length row
        /\ (forall j c tj,
              nth_error row j = Some c -> nth_error properties j = Some tj ->
              nth_error data j
              = Some (Permissive.convertToType c (Property.type tj)))).
Proof.
  intros properties Hlen.
  assert (Hsome : forall k c, nth_error row k = Some c ->
            exists tk, nth_error properties k = Some tk).
  { intros k c Hk. destruct (nth_error properties k) as [tk|] eqn:E.
    - now exists tk.
    - apply nth_error_None in E.
      assert (k < List.length row)%nat by (apply nth_error_Some; congruence).
      lia. }
  assert (Htypes : forall j tj, nth_error properties j = Some tj ->
            nth_error (getPropertyTypes properties) (0 + j)
            = Some (Property.type tj)).
  { intros j tj Hj. unfold getPropertyTypes. simpl.
    now rewrite nth_error_map, Hj. }
  assert (Hwf : (List.length row
                 =? List.length (getPropertyTypes properties))%nat = true).
  { unfold getPropertyTypes. rewrite length_map, Hlen. apply Nat.eqb_refl. }
  unfold Permissive.publishRow, Permissive.checkValidTypes.
  fold properties. rewrite Hwf. split.
  - intros i cell ti Hcell Hti Hne Hbefore.
    rewrite (checkValidTypes_from_mismatch i row 0 properties cell ti);
      auto.
    + simpl. eexists. split; [reflexivity|]. split; [|split].
      * now rewrite setAt_length, convertCells_length.
      * apply setAt_same. rewrite convertCells_length.
        apply nth_error_Some. congruence.
      * intros j c tj Hj Hc Htj. rewrite setAt_other by exact Hj.
        apply convertCells_nth; auto. simpl. congruence.
    + intros k c Hk Hc. destruct (Hsome k c Hc) as [tk Htk].
      exists tk. split; [exact Htk | now apply (Hbefore k c tk)].
  - intros Hall.
    rewrite (checkValidTypes_from_valid row 0 properties).
    + simpl. eexists. split; [reflexivity|]. split.
      * apply convertCells_length.
      * intros j c tj Hc Htj. apply convertCells_nth; auto. discriminate.
    + intros k c Hc. destruct (Hsome k c Hc) as [tk Htk].
      exists tk. split; [exact Htk | now apply (Hall k c tk)].
Qed.

(** C4. Whatever the order in which the files are read, [Publish] writes
    one record for every row that has as many cells as the schema has
    properties, so as many records as the files have such rows, and ends
    the call; a row with another number of cells writes nothing and throws
    nothing. *)
Theorem publish_counts_well_formed_rows
    (read : string -> list (list string)) (completion : list string)
    (call : Call.t) :
  Permissive.schedule call completion ->
  List.length (Call.written (Permissive.Publish read completion call))
  = (List.length (Call.written call)
     + list_sum (map (fun f => wellFormedRows (Call.request call) (read f))
                     (Permissive.files call)))%nat
  /\ Call.ended (Permissive.Publish read completion call) = true
  /\ (forall row c, Call.request c = Call.request call ->
        wellFormed (Call.request call) row = true ->
        exists record,
          Permissive.publishRow row c = (Ok tt, Call.write record c))
  /\ (forall row c, Call.request c = Call.request call ->
        wellFormed (Call.request call) row = false ->
        Permissive.publishRow row c = (Ok tt, c)).
Proof.
  intros Hsched. unfold Permissive.Publish.
  rewrite runCallbacks_appends. simpl. split; [|split; [reflexivity|split]].
  - rewrite length_app, flat_map_length_sum. f_equal.
    apply list_sum_permutation. apply Permutation_sym.
    erewrite map_ext; [apply Permutation_map, Hsched|].
    intros f. simpl. now rewrite fileRecords_length.
  - intros row c Hreq Hwf.
    destruct (publishRow_appends row c) as [Hrun Hlen].
    rewrite <- Hreq in Hwf. rewrite Hwf in Hlen. rewrite Hrun.
    destruct (rowRecords (Call.request c) row) as [|record [|? ?]];
      try discriminate.
    exists record. reflexivity.
  - intros row c Hreq Hwf.
    destruct (publishRow_appends row c) as [Hrun Hlen].
    rewrite <- Hreq in Hwf. rewrite Hwf in Hlen. rewrite Hrun.
    destruct (rowRecords (Call.request c) row); try discriminate.
    now rewrite appendTo_nil.
Qed.

(** C5, as the code has it. The records of one file are written
    together and in the order of its rows; the files follow each other in
    the order in which their reads complete, which is the order of
    [settings] when the reads complete in that order.  The records added
    depend on the request, the files and that order only. *)
Theorem publish_order_follows_completion
    (read : string -> list (list string)) (completion : list string)
    (call : Call.t) :
  Call.written (Permissive.Publish read completion call)
  = Call.written call
    ++ flat_map (fun f => flat_map (rowRecords (Call.request call)) (read f))
                completion.
Proof.
  unfold Permissive.Publish. rewrite runCallbacks_appends. reflexivity.
Qed.

End PublishTheorems.

(** C3 as stated fails: the error of the invalid record of the host's
    animals test does not name the index 2 of the mismatch. *)
Lemma error_text_omits_index :
  ~ (forall record,
       In record
         (Call.written
            (snd (Permissive.publishRow
                    ["52"; "Macropus fuliginosus"; "blue"; "1796-07-23"]
                    (Sample.call "animals.csv" Sample.animals)))) ->
       PublishRecord.invalid record = true
       /\ nth_error (PublishRecord.data record) 2 = Some VNull
       /\ exists e, PublishRecord.error record = Some e
                    /\ includes e "boolean" = true
                    /\ includes e "string" = true
                    /\ includes e (decimal 2) = true).
Proof.
  intros Hall.
  assert (Hw : Call.written
            (snd (Permissive.publishRow
                    ["52"; "Macropus fuliginosus"; "blue"; "1796-07-23"]
                    (Sample.call "animals.csv" Sample.animals)))
     = [ {| PublishRecord.invalid := true;
            PublishRecord.error :=
              Some "Expected type: boolean but got type: string";
            PublishRecord.data :=
              [VNumber (Sample.ParseInt "52");
               VString "Macropus fuliginosus"; VNull;
               VDate (Some (-5473267200000)%Z)] |} ]) by reflexivity.
  rewrite Hw in Hall.
  destruct (Hall _ (or_introl eq_refl)) as [_ [_ [e [He [_ [_ Hi]]]]]].
  injection He as <-. vm_compute in Hi. discriminate.
Qed.

Lemma publishRow_first_mismatch_witness :
  exists data,
    Permissive.publishRow
      ["52"; "Macropus fuliginosus"; "blue"; "1796-07-23"]
      (Sample.call "animals.csv" Sample.animals)
    = (Ok tt,
       Call.write
         {| PublishRecord.invalid := true;
            PublishRecord.error :=
              Some "Expected type: boolean but got type: string";
            PublishRecord.data := data |}
         (Sample.call "animals.csv" Sample.animals))
    /\ nth_error data 2 = Some VNull
    /\ nth_error data 0 = Some (VNumber (Sample.ParseInt "52")).
Proof.
  destruct (publishRow_first_mismatch
              (Sample.call "animals.csv" Sample.animals)
              ["52"; "Macropus fuliginosus"; "blue"; "1796-07-23"]
              eq_refl) as [Hbad _].
  destruct (Hbad 2%nat "blue"
              {| Property.name := "extinct"; Property.type := "boolean" |}
              eq_refl eq_refl) as [data [Hrun [_ [Hnull Hrest]]]].
  - vm_compute. discriminate.
  - intros [|[|k]] c tk Hk Hc Htk; try lia;
      injection Hc as <-; injection Htk as <-; reflexivity.
  - exists data. split; [exact Hrun|]. split; [exact Hnull|].
    apply (Hrest 0%nat "52"
             {| Property.name := "id"; Property.type := "integer" |});
      [lia | reflexivity | reflexivity].
Defined.

(** C5 as stated fails: with two files, the second read may complete
    first, and then its record comes first. *)
Lemma publish_order_not_file_order :
  Permissive.schedule (Sample.call "a.csv,b.csv" Sample.idOnly)
    ["b.csv"; "a.csv"]
  /\ Call.written
       (Permissive.Publish Sample.twoFiles ["b.csv"; "a.csv"]
          (Sample.call "a.csv,b.csv" Sample.idOnly))
     <> Call.written
          (Permissive.Publish Sample.twoFiles
             (Permissive.files (Sample.call "a.csv,b.csv" Sample.idOnly))
             (Sample.call "a.csv,b.csv" Sample.idOnly)).
Proof.
  split.
  - unfold Permissive.schedule. vm_compute. apply perm_swap.
  - change (Call.written
              (Permissive.Publish Sample.twoFiles ["b.csv"; "a.csv"]
                 (Sample.call "a.csv,b.csv" Sample.idOnly)))
      with [Sample.validId "2"; Sample.validId "1"].
    change (Call.written
              (Permissive.Publish Sample.twoFiles
                 (Permissive.files (Sample.call "a.csv,b.csv" Sample.idOnly))
                 (Sample.call "a.csv,b.csv" Sample.idOnly)))
      with [Sample.validId "1"; Sample.validId "2"].
    unfold Sample.validId. discriminate.
Qed.

Lemma publish_counts_well_formed_rows_witness :
  Permissive.schedule (Sample.call "a.csv,b.csv" Sample.idOnly)
    ["b.csv"; "a.csv"]
  /\ List.length
       (Call.written
          (Permissive.Publish Sample.twoFiles ["b.csv"; "a.csv"]
             (Sample.call "a.csv,b.csv" Sample.idOnly))) = 2%nat.
Proof.
  assert (Hs : Permissive.schedule (Sample.call "a.csv,b.csv" Sample.idOnly)
                 ["b.csv"; "a.csv"]).
  { unfold Permissive.schedule. vm_compute. apply perm_swap. }
  split; [exact Hs|].
  rewrite (proj1 (publish_counts_well_formed_rows Sample.twoFiles
                    ["b.csv"; "a.csv"]
                    (Sample.call "a.csv,b.csv" Sample.idOnly) Hs)).
  reflexivity.
Defined.

(* ------------------------------------------------------------------ *)
(** ** Schema discovery *)
(* ------------------------------------------------------------------ *)

Lemma increment_length (k : nat) (counts : list nat) :
  List.length (Permissive.increment k counts) = List.length counts.
Proof.
  revert k; induction counts as [|c counts IH]; intros [|k]; simpl; auto.
Qed.

Lemma increment_nth (k k' : nat) (counts : list nat) :
  (k < List.length counts)%nat ->
  nth k' (Permissive.increment k counts) O
  = (nth k' counts O + if (k =? k')%nat then 1 else 0)%nat.
Proof.
  revert k k'; induction counts as [|c counts IH]; intros [|k] [|k'] Hk;
    simpl in *; try lia.
  apply IH. lia.
Qed.

Lemma counterOf_spec (type : string) (k : nat) :
  Permissive.counterOf type = Some k
  <-> (k < 5)%nat /\ type = nth k typeNames EmptyString.
Proof.
  unfold Permissive.counterOf, typeNames.
  repeat match goal with
         | |- context [String.eqb type ?w] =>
             destruct (String.eqb_spec type w)
         end;
    (split;
     [ first [ discriminate
             | intros [= <-]; simpl; split; [lia | assumption] ]
     | intros [Hk Ht];
       destruct k as [|[|[|[|[|k]]]]]; simpl in *;
       try reflexivity; try congruence; try lia ]).
Qed.

Lemma position_rank (k : nat) :
  (k < 5)%nat -> rank (nth k typeNames EmptyString) = k.
Proof.
  intros Hk. destruct k as [|[|[|[|[|k]]]]]; try lia; reflexivity.
Qed.

(** The vote on five counters: the first of the largest wins. *)
Lemma vote_of_five (a b c d e : nat) (type : string) :
  exists n,
    (n < 5)%nat
    /\ Permissive.typeOfIndex type (Permissive.getIndexOfMax [a; b; c; d; e])
       = nth n typeNames EmptyString
    /\ forall k, (k < 5)%nat ->
         (nth k [a; b; c; d; e] O <= nth n [a; b; c; d; e] O)%nat
         /\ (nth k [a; b; c; d; e] O = nth n [a; b; c; d; e] O ->
             (n <= k)%nat).
Proof.
  unfold Permissive.getIndexOfMax. simpl.
  repeat match goal with
         | |- context [(?x <? ?y)%nat] =>
             destruct (Nat.ltb_spec x y); simpl
         end;
    first [ exists 0%nat; split; [lia|]; split; [reflexivity|]
          | exists 1%nat; split; [lia|]; split; [reflexivity|]
          | exists 2%nat; split; [lia|]; split; [reflexivity|]
          | exists 3%nat; split; [lia|]; split; [reflexivity|]
          | exists 4%nat; split; [lia|]; split; [reflexivity|] ];
    intros [|[|[|[|[|k]]]]] Hk; simpl; lia.
Qed.

Lemma count_occ_two (l : list string) (t1 t2 : string) :
  t1 <> t2 ->
  (count_occ string_dec l t1 + count_occ string_dec l t2 <= List.length l)%nat.
Proof.
  intros Hne. induction l as [|x l IH]; simpl; [lia|].
  destruct (string_dec x t1), (string_dec x t2); subst; try congruence; lia.
Qed.

Lemma typeNames_injective (k k' : nat) :
  (k < 5)%nat -> (k' < 5)%nat ->
  nth k typeNames EmptyString = nth k' typeNames EmptyString -> k = k'.
Proof.
  intros Hk Hk' Heq.
  rewrite <- (position_rank k Hk), <- (position_rank k' Hk'). now rewrite Heq.
Qed.

Lemma typeNames_nth (type : string) :
  In type typeNames ->
  exists k, (k < 5)%nat /\ type = nth k typeNames EmptyString.
Proof.
  intros Hin. simpl in Hin.
  destruct Hin as [<-|[<-|[<-|[<-|[<-|[]]]]]];
    [exists 0%nat | exists 1%nat | exists 2%nat | exists 3%nat | exists 4%nat];
    (split; [lia | reflexivity]).
Qed.

Lemma counter_setAt_same (tca : list (list nat)) (j k : nat)
    (counts : list nat) :
  (j < List.length tca)%nat -> counter (setAt j counts tca) j k = nth k counts O.
Proof.
  intros Hj. unfold counter. now rewrite setAt_same.
Qed.

Lemma counter_setAt_other (tca : list (list nat)) (j c k : nat)
    (counts : list nat) :
  c <> j -> counter (setAt j counts tca) c k = counter tca c k.
Proof.
  intros Hc. unfold counter. now rewrite setAt_other.
Qed.

Lemma Forall_setAt {A : Type} (P : A -> Prop) (i : nat) (v : A) (l : list A) :
  P v -> Forall P l -> Forall P (setAt i v l).
Proof.
  intros Hv Hl. revert i. induction Hl as [|a l Ha Hl IH]; intros [|i]; simpl;
    constructor; auto.
Qed.

Section Discovery.
Context `{Engine}.

Lemma getType_counter (v : string) :
  exists k, Permissive.counterOf (Permissive.getType v) = Some k /\ (k < 5)%nat.
Proof.
  destruct (permissive_firstMatch v) as [Hin _].
  destruct (typeNames_nth _ Hin) as [k [Hk Heq]].
  exists k. split; [|exact Hk]. apply counterOf_spec. now split.
Qed.

Lemma countValues_spec (values : list string) :
  forall (j : nat) (tca : list (list nat)),
  Forall (fun counts => List.length counts = 5%nat) tca ->
  (j + List.length values <= List.length tca)%nat ->
  exists tca',
    Permissive.countValues j values tca = Ok tca'
    /\ List.length tca' = List.length tca
    /\ Forall (fun counts => List.length counts = 5%nat) tca'
    /\ forall c k,
         counter tca' c k
         = (counter tca c k
            + if (j <=? c)%nat then hit k (nth_error values (c - j)) else 0)%nat.
Proof.
  induction values as [|v rest IH]; intros j tca Hfive Hlen; simpl in *.
  - exists tca. repeat split; auto. intros c k.
    destruct (j <=? c)%nat; [|lia]. destruct (c - j)%nat; simpl; lia.
  - destruct (getType_counter v) as [k0 [Hk0 Hlt]]. rewrite Hk0.
    destruct (nth_error tca j) as [counts|] eqn:Hj;
      [|apply nth_error_None in Hj; lia].
    assert (Hcounts : List.length counts = 5%nat).
    { rewrite Forall_forall in Hfive. apply Hfive.
      eapply nth_error_In; eauto. }
    destruct (IH (S j) (setAt j (Permissive.increment k0 counts) tca))
      as [tca' [Hrun [Hlen' [Hfive' Hcnt]]]].
    + apply Forall_setAt; [now rewrite increment_length | exact Hfive].
    + rewrite setAt_length. lia.
    + exists tca'. split; [exact Hrun|].
      split; [now rewrite Hlen', setAt_length|]. split; [exact Hfive'|].
      intros c k. rewrite Hcnt.
      destruct (Nat.eq_dec c j) as [->|Hne].
      * rewrite counter_setAt_same by lia.
        rewrite increment_nth by lia.
        replace (S j <=? j)%nat with false by (symmetry; apply Nat.leb_gt; lia).
        rewrite Nat.leb_refl, Nat.sub_diag. simpl. rewrite Hk0.
        unfold counter. rewrite Hj. lia.
      * rewrite counter_setAt_other by exact Hne.
        destruct (Nat.leb_spec (S j) c) as [Hle|Hgt].
        -- replace (j <=? c)%nat with true by (symmetry; apply Nat.leb_le; lia).
           replace (c - j)%nat with (S (c - S j)) by lia. reflexivity.
        -- replace (j <=? c)%nat with false
             by (symmetry; apply Nat.leb_gt; lia).
           reflexivity.
Qed.

Lemma countRows_spec (data : list Row) :
  forall tca : list (list nat),
  Forall (fun counts => List.length counts = 5%nat) tca ->
  Forall (fun row : Row => (List.length row <= List.length tca)%nat) data ->
  exists tca',
    Permissive.countRows data tca = Ok tca'
    /\ List.length tca' = List.length tca
    /\ Forall (fun counts => List.length counts = 5%nat) tca'
    /\ forall c k, counter tca' c k = (counter tca c k + hits c k data)%nat.
Proof.
  induction data as [|row rest IH]; intros tca Hfive Hrows; simpl.
  - exists tca. repeat split; auto.
  - inversion Hrows as [|? ? Hrow Hrest]; subst.
    destruct (countValues_spec (Object_values row) 0 tca Hfive)
      as [tca1 [Hrun1 [Hlen1 [Hfive1 Hcnt1]]]].
    { unfold Object_values. rewrite length_map. simpl. exact Hrow. }
    rewrite Hrun1.
    destruct (IH tca1 Hfive1) as [tca' [Hrun [Hlen' [Hfive' Hcnt]]]].
    { now rewrite Hlen1. }
    exists tca'. split; [exact Hrun|]. split; [congruence|].
    split; [exact Hfive'|].
    intros c k. rewrite Hcnt, Hcnt1. simpl. rewrite Nat.sub_0_r.
    unfold hits. simpl. lia.
Qed.

Lemma hits_tally (c k : nat) (data : list Row) :
  (k < 5)%nat ->
  hits c k data = tally (nth k typeNames EmptyString) (column c data).
Proof.
  intros Hk. unfold hits, tally, column.
  remember (nth k typeNames EmptyString) as type eqn:Htype.
  induction data as [|row rest IH]; simpl; [reflexivity|].
  rewrite map_app, count_occ_app, IH. f_equal.
  destruct (nth_error (Object_values row) c) as [v|]; simpl; [|reflexivity].
  destruct (getType_counter v) as [k0 [Hk0 Hlt]]. rewrite Hk0.
  apply counterOf_spec in Hk0. destruct Hk0 as [_ Hv].
  destruct (string_dec (Permissive.getType v) type) as [Heq|Hne].
  - rewrite Hv, Htype in Heq. apply typeNames_injective in Heq; auto. subst.
    now rewrite Nat.eqb_refl.
  - destruct (Nat.eqb_spec k0 k) as [->|_]; [congruence | reflexivity].
Qed.

Lemma pushProperties_spec (keys : list string) :
  forall (tca : list (list nat)) (type : string),
  List.length tca = List.length keys ->
  Forall (fun counts => List.length counts = 5%nat) tca ->
  getPropertyNames (Permissive.pushProperties type keys tca) = keys
  /\ forall j p,
       nth_error (Permissive.pushProperties type keys tca) j = Some p ->
       exists n,
         (n < 5)%nat
         /\ Property.type p = nth n typeNames EmptyString
         /\ forall k, (k < 5)%nat ->
              (counter tca j k <= counter tca j n)%nat
              /\ (counter tca j k = counter tca j n -> (n <= k)%nat).
Proof.
  induction keys as [|key keys IH]; intros [|counts tca] type Hlen Hfive;
    simpl in Hlen; try discriminate.
  - split; [reflexivity|]. intros [|j] p; discriminate.
  - inversion Hfive as [|? ? Hcounts Hrest]; subst.
    destruct counts as [|a [|b [|c [|d [|e [|? ?]]]]]]; try discriminate.
    cbn [Permissive.pushProperties].
    set (type' := Permissive.typeOfIndex type
                    (Permissive.getIndexOfMax [a; b; c; d; e])).
    destruct (IH tca type' ltac:(lia) Hrest) as [Hnames Hprops].
    split.
    + unfold getPropertyNames in *. cbn [map Property.name].
      now rewrite Hnames.
    + intros [|j] p Hp; cbn [nth_error] in Hp.
      * injection Hp as <-. cbn [Property.type].
        destruct (vote_of_five a b c d e type) as [n [Hn [Htype Hmax]]].
        exists n. split; [exact Hn|]. split; [exact Htype|].
        unfold counter. cbn [nth_error]. exact Hmax.
      * destruct (Hprops j p Hp) as [n Hn]. exists n. exact Hn.
Qed.

(** The counting of [getSchema] on a first row and rows no wider. *)
Lemma countRows_zeros (row : Row) (rest : list Row) :
  Forall (fun r : Row => (List.length r <= List.length row)%nat) rest ->
  exists tca,
    Permissive.countRows (row :: rest)
      (map (fun _ : string => [0; 0; 0; 0; 0]%nat) (Object_keys row)) = Ok tca
    /\ List.length tca = List.length (Object_keys row)
    /\ Forall (fun counts => List.length counts = 5%nat) tca
    /\ forall c k, counter tca c k = hits c k (row :: rest).
Proof.
  intros Hrest.
  set (keys := Object_keys row).
  set (zeros := map (fun _ : string => [0; 0; 0; 0; 0]%nat) keys).
  assert (Hfive : Forall (fun counts => List.length counts = 5%nat) zeros).
  { unfold zeros. apply Forall_forall. intros counts Hin.
    apply in_map_iff in Hin. destruct Hin as [? [<- _]]. reflexivity. }
  assert (Hzero : forall c k, counter zeros c k = O).
  { intros c k. unfold counter, zeros. rewrite nth_error_map.
    destruct (nth_error keys c); simpl; [|reflexivity].
    destruct k as [|[|[|[|[|[|k]]]]]]; reflexivity. }
  assert (Hkeys : List.length zeros = List.length row).
  { unfold zeros, keys, Object_keys. now rewrite !length_map. }
  destruct (countRows_spec (row :: rest) zeros Hfive)
    as [tca [Hrun [Hlen [Hfive' Hcnt]]]].
  { constructor; rewrite Hkeys; [lia | exact Hrest]. }
  exists tca. split; [exact Hrun|]. split.
  - unfold keys, Object_keys. rewrite length_map. congruence.
  - split; [exact Hfive'|]. intros c k. now rewrite Hcnt, Hzero.
Qed.

(** A row wider than the first one makes the counting throw: the counting
    succeeds only if no row is wider than [typeCountArray]. *)
Lemma countValues_ok_width (values : list string) :
  forall (j : nat) (tca tca' : list (list nat)),
  Permissive.countValues j values tca = Ok tca' ->
  (values = [] \/ j + List.length values <= List.length tca)%nat
  /\ List.length tca' = List.length tca.
Proof.
  induction values as [|v rest IH]; intros j tca tca' Hrun; simpl in Hrun.
  - injection Hrun as <-. split; [now left | reflexivity].
  - destruct (getType_counter v) as [k0 [Hk0 _]]. rewrite Hk0 in Hrun.
    destruct (nth_error tca j) as [counts|] eqn:Hj; [|discriminate].
    assert (Hlt : (j < List.length tca)%nat)
      by (apply nth_error_Some; congruence).
    destruct (IH _ _ _ Hrun) as [Hwidth Hlen].
    rewrite setAt_length in Hwidth, Hlen. split; [right|exact Hlen].
    destruct Hwidth as [->|Hwidth]; simpl; lia.
Qed.

Lemma countRows_ok_width (data : list Row) :
  forall tca tca' : list (list nat),
  Permissive.countRows data tca = Ok tca' ->
  Forall (fun row : Row => (List.length row <= List.length tca)%nat) data.
Proof.
  induction data as [|row rest IH]; intros tca tca' Hrun; simpl in Hrun.
  - constructor.
  - destruct (Permissive.countValues 0 (Object_values row) tca)
      as [tca1|] eqn:Hrow; [|discriminate].
    destruct (countValues_ok_width _ _ _ _ Hrow) as [Hwidth Hlen].
    constructor.
    + unfold Object_values in Hwidth. rewrite length_map in Hwidth.
      destruct Hwidth as [Hnil|Hwidth]; [|exact Hwidth].
      destruct row; [simpl; lia | discriminate].
    + rewrite <- Hlen. now apply (IH tca1 tca').
Qed.

Lemma fileSchema_ok_width (filepath : string) (row : Row) (rest : list Row)
    (schema : Schema.t) :
  Permissive.fileSchema filepath (Object_keys row) (row :: rest) = Ok schema ->
  Forall (fun r : Row => (List.length r <= List.length row)%nat) rest.
Proof.
  unfold Permissive.fileSchema. intros Hrun.
  destruct (Permissive.countRows (row :: rest) _) as [tca|] eqn:Hcount;
    [|discriminate].
  apply countRows_ok_width in Hcount.
  unfold Object_keys in Hcount. rewrite !length_map in Hcount.
  now inversion Hcount.
Qed.

(** A row wider than the first makes the counting throw. *)
Lemma fileSchema_wide_row (filepath : string) (row : Row) (rest : list Row) :
  Exists (fun r : Row => (List.length row < List.length r)%nat) rest ->
  Permissive.fileSchema filepath (Object_keys row) (row :: rest) = TypeError.
Proof.
  intros Hwide.
  destruct (Permissive.fileSchema filepath (Object_keys row) (row :: rest))
    as [schema|] eqn:Hfile; [exfalso | reflexivity].
  apply fileSchema_ok_width in Hfile. rewrite Forall_forall in Hfile.
  apply Exists_exists in Hwide. destruct Hwide as [r [Hr Hlt]].
  specialize (Hfile r Hr). lia.
Qed.

End Discovery.

Section DiscoveryTheorems.
Context `{Engine}.

(** The vote, for a file with a first row and no row wider than it: the
    schema built by [getSchema] has one property per key of the first row,
    and the type of column [j] wins the vote over the classified values of
    the column: no type has a higher tally, and a tie goes to the type that
    comes first in integer, number, boolean, datetime, string.  A column
    with nine integers in ten values is an integer column.  With no known
    schema of that header, [getSchema] resolves with this schema. *)
Lemma majority_vote_of_narrow_rows (filepath : string) (row : Row)
    (rest : list Row) :
  Forall (fun r : Row => (List.length r <= List.length row)%nat) rest ->
  exists schema,
    Permissive.fileSchema filepath (Object_keys row) (row :: rest) = Ok schema
    /\ getPropertyNames (Schema.properties schema) = Object_keys row
    /\ (forall j p,
          nth_error (Schema.properties schema) j = Some p ->
          wins (Property.type p) (column j (row :: rest))
          /\ ((9 * List.length (column j (row :: rest))
               <= 10 * tally "integer" (column j (row :: rest)))%nat ->
              Property.type p = "integer"))
    /\ (forall knownSchemas,
          find (matchesHeader (Object_keys row)) knownSchemas = None ->
          Permissive.getSchema filepath (row :: rest) knownSchemas
          = (Ok schema, knownSchemas ++ [schema])).
Proof.
  intros Hrest.
  set (keys := Object_keys row). set (data := row :: rest).
  destruct (countRows_zeros row rest Hrest) as [tca [Hrun [Hlen [Hfive Hcnt]]]].
  destruct (pushProperties_spec keys tca EmptyString Hlen Hfive)
    as [Hnames Hprops].
  assert (Hschema : Permissive.fileSchema filepath keys data
            = Ok {| Schema.name := schemaName filepath;
                    Schema.settings := [filepath];
                    Schema.properties :=
                      Permissive.pushProperties EmptyString keys tca |}).
  { unfold Permissive.fileSchema, keys, data. now rewrite Hrun. }
  eexists. split; [exact Hschema|]. split; [exact Hnames|]. split.
  - intros j p Hp. cbn [Schema.properties] in Hp.
    destruct (Hprops j p Hp) as [n [Hn [Htype Hmax]]].
    assert (Htally : forall k, (k < 5)%nat ->
              counter tca j k
              = tally (nth k typeNames EmptyString) (column j data)).
    { intros k Hk. rewrite Hcnt. now apply hits_tally. }
    assert (Hwins : wins (Property.type p) (column j data)).
    { split.
      - rewrite Htype. apply nth_In. simpl. lia.
      - intros other Hother.
        destruct (typeNames_nth other Hother) as [k [Hk ->]].
        rewrite Htype, <- !Htally by assumption.
        unfold rank. fold (rank (nth n typeNames EmptyString)).
        fold (rank (nth k typeNames EmptyString)).
        rewrite !position_rank by assumption. now apply Hmax. }
    split; [exact Hwins|]. intros Hnine.
    destruct (string_dec (Property.type p) "integer") as [Heq|Hne];
      [exact Heq | exfalso].
    destruct Hwins as [_ Hall].
    destruct (Hall "integer" ltac:(simpl; auto)) as [Hle Htie].
    assert (Hlt : (tally "integer" (column j data)
                   < tally (Property.type p) (column j data))%nat).
    { destruct (Nat.eq_dec (tally "integer" (column j data))
                  (tally (Property.type p) (column j data))) as [Heq|Hneq];
        [|lia].
      specialize (Htie Heq). rewrite Htype in Htie.
      rewrite position_rank in Htie by assumption.
      change (rank "integer") with 0%nat in Htie.
      assert (n = 0%nat) by lia. subst n. now rewrite Htype in Hne. }
    pose proof (count_occ_two (map Permissive.getType (column j data))
                  "integer" (Property.type p) (not_eq_sym Hne)) as Hsum.
    rewrite length_map in Hsum. unfold tally in *. lia.
  - intros knownSchemas Hfind. subst keys data.
    unfold Permissive.getSchema. cbv iota zeta beta. rewrite Hschema.
    unfold checkKnownSchemas. now rewrite Hfind.
Qed.

(** C2, what the code does. On a file with at least one data row
    [getSchema] votes only when no row is wider than the first: then the
    schema has one property per key of the first row, the type of column
    [j] wins the vote over the classified values of the column (no type has
    a higher tally, a tie goes to the type that comes first in integer,
    number, boolean, datetime, string; nine integers in ten values give
    integer), and with no known schema of that header [getSchema] resolves
    with this schema.  On every other file, that is exactly when some row
    has more values than the first, [typeCountArray[j]] is undefined for a
    value of that row: the callback throws, no column gets a type, and
    [knownSchemas] is left as it was. *)
Theorem getSchema_majority_vote (filepath : string) (row : Row)
    (rest : list Row) :
  (Forall (fun r : Row => (List.length r <= List.length row)%nat) rest ->
   exists schema,
     Permissive.fileSchema filepath (Object_keys row) (row :: rest) = Ok schema
     /\ getPropertyNames (Schema.properties schema) = Object_keys row
     /\ (forall j p,
           nth_error (Schema.properties schema) j = Some p ->
           wins (Property.type p) (column j (row :: rest))
           /\ ((9 * List.length (column j (row :: rest))
                <= 10 * tally "integer" (column j (row :: rest)))%nat ->
               Property.type p = "integer"))
     /\ (forall knownSchemas,
           find (matchesHeader (Object_keys row)) knownSchemas = None ->
           Permissive.getSchema filepath (row :: rest) knownSchemas
           = (Ok schema, knownSchemas ++ [schema])))
  /\ (Permissive.fileSchema filepath (Object_keys row) (row :: rest)
      = TypeError
      <-> Exists (fun r : Row => (List.length row < List.length r)%nat) rest)
  /\ (Exists (fun r : Row => (List.length row < List.length r)%nat) rest ->
      forall knownSchemas,
        Permissive.getSchema filepath (row :: rest) knownSchemas
        = (TypeError, knownSchemas)).
Proof.
  pose proof (fileSchema_wide_row filepath row rest) as Hthrow.
  split; [apply majority_vote_of_narrow_rows|]. split; [split|].
  - intros Hfile.
    assert (Hnot : ~ Forall (fun r : Row =>
                               (List.length r <= List.length row)%nat) rest).
    { intros Hrest.
      destruct (majority_vote_of_narrow_rows filepath row rest Hrest)
        as [schema [Hok _]].
      congruence. }
    apply neg_Forall_Exists_neg in Hnot;
      [|intros r; apply le_dec].
    eapply Exists_impl; [|exact Hnot]. simpl. intros r Hr. lia.
  - exact Hthrow.
  - intros Hwide knownSchemas. unfold Permissive.getSchema.
    now rewrite (Hthrow Hwide).
Qed.

(** C6, what the code does. With no data row [data[0]] is undefined:
    both versions of [getSchema] throw on [Object.keys] and yield no
    schema; [knownSchemas] is left as it was. *)
Theorem getSchema_without_rows (filepath : string)
    (knownSchemas : list Schema.t) :
  Permissive.getSchema filepath [] knownSchemas = (TypeError, knownSchemas)
  /\ Strict.getSchema filepath [] knownSchemas = (TypeError, knownSchemas).
Proof.
  split; reflexivity.
Qed.

(** C8, what the code does. The name is cut at the first dot of the
    whole path: for a file under a directory with a dot in its name, both
    versions of [getSchema] name the schema after a piece of that directory
    and not after the file, and a path that starts with a dot gives the
    empty name; [settings] is the file alone. *)
Theorem getSchema_name_of_dotted_path (row : Row) :
  let filepath :=
    "/go/src/github.com/naveego/code-challenge-plugin/data/animals.csv" in
  (exists properties,
     Permissive.getSchema filepath [row] []
     = (Ok {| Schema.name := "github";
              Schema.settings := [filepath];
              Schema.properties := properties |},
        [ {| Schema.name := "github";
             Schema.settings := [filepath];
             Schema.properties := properties |} ]))
  /\ Strict.getSchema filepath [row] []
     = (Ok {| Schema.name := "github";
              Schema.settings := [filepath];
              Schema.properties := Strict.firstRowProperties row |},
        [ {| Schema.name := "github";
             Schema.settings := [filepath];
             Schema.properties := Strict.firstRowProperties row |} ])
  /\ schemaName "./data/animals.csv" = EmptyString
  /\ schemaName "data/animals.csv" = "animals"
  /\ schemaName "data/people.1.csv" = "people".
Proof.
  intros filepath. split; [|split; [|split; [|split]]]; try reflexivity.
  destruct (countRows_zeros row [] (Forall_nil _)) as [tca [Hrun _]].
  eexists. unfold Permissive.getSchema, Permissive.fileSchema.
  rewrite Hrun. reflexivity.
Qed.

End DiscoveryTheorems.

Lemma getSchema_majority_vote_witness :
  (Forall (fun r : Row => (List.length r <= 1)%nat) (tl Sample.tenRows)
   /\ exists schema,
        Permissive.getSchema "data/ids.csv" Sample.tenRows []
        = (Ok schema, [schema])
        /\ getPropertyTypes (Schema.properties schema) = ["integer"])
  /\ Exists (fun r : Row => (1 < List.length r)%nat)
            [[("id", "2"); ("field2", "3")]]
  /\ Permissive.getSchema "data/ids.csv"
       [[("id", "1")]; [("id", "2"); ("field2", "3")]] []
     = (TypeError, []).
Proof.
  assert (Hrows : Forall (fun r : Row => (List.length r <= 1)%nat)
                    (tl Sample.tenRows)).
  { repeat constructor. }
  assert (Hwide : Exists (fun r : Row => (1 < List.length r)%nat)
                    [[("id", "2"); ("field2", "3")]]).
  { constructor. simpl. lia. }
  split; [split; [exact Hrows|] | split; [exact Hwide|]].
  - destruct (getSchema_majority_vote "data/ids.csv" [("id", "1")]
                (tl Sample.tenRows))
      as [Hvotes _].
    destruct (Hvotes Hrows) as [schema [_ [Hnames [Hvote Hget]]]].
    exists schema. split; [exact (Hget [] eq_refl)|].
    destruct (Schema.properties schema) as [|p [|? ?]]; try discriminate.
    unfold getPropertyTypes. simpl. f_equal.
    apply (Hvote 0%nat p eq_refl). apply Nat.leb_le. vm_compute. reflexivity.
  - destruct (getSchema_majority_vote "data/ids.csv" [("id", "1")]
                [[("id", "2"); ("field2", "3")]])
      as [_ [_ Hthrows]].
    exact (Hthrows Hwide []).
Defined.

(* ------------------------------------------------------------------ *)
(** ** The start of the plugin *)
(* ------------------------------------------------------------------ *)

(** C7, as the code has it. The tests run if and only if the first
    event is a first line that [strconv.Atoi] accepts, whatever the sign of
    the number; the timeout, a line that [Atoi] rejects, and an exit of the
    plugin that [Wait] reports as success, as another error or with a
    status that is not zero are fatal. *)
Theorem handshake_accepts_integers (e : Host.Event) :
  ((exists port, Host.main e = Host.RunTests port)
   <-> (exists text port, e = Host.Line text /\ Host.Atoi text = Some port))
  /\ Host.main Host.Timeout = Host.Fatal
  /\ (forall text, Host.Atoi text = None ->
        Host.main (Host.Line text) = Host.Fatal)
  /\ Host.main (Host.PluginExit Host.WaitNil) = Host.Fatal
  /\ Host.main (Host.PluginExit Host.WaitOtherError) = Host.Fatal
  /\ (forall status, status <> 0%Z ->
        Host.main (Host.PluginExit (Host.WaitExitError (Some status)))
        = Host.Fatal).
Proof.
  split; [|split; [reflexivity|split; [|split; [reflexivity|split]]]].
  - split.
    + intros [port Hrun]. destruct e as [|w|text]; simpl in Hrun.
      * discriminate.
      * destruct w as [|[status|]|]; simpl in Hrun; try discriminate.
        destruct (status =? 0)%Z; discriminate.
      * unfold Host.monitorStdout in Hrun.
        destruct (Host.Atoi text) as [p|] eqn:Hp; [|discriminate].
        exists text, p. now split.
    + intros [text [port [-> Hp]]]. exists port. simpl.
      unfold Host.monitorStdout. now rewrite Hp.
  - intros text Hp. simpl. unfold Host.monitorStdout. now rewrite Hp.
  - reflexivity.
  - intros status Hs. simpl. apply Z.eqb_neq in Hs. now rewrite Hs.
Qed.

(** C7 as stated fails: the line -5 starts the tests on the port -5. *)
Lemma handshake_accepts_non_positive :
  ~ (forall text port,
       Host.main (Host.Line text) = Host.RunTests port -> (0 < port)%Z).
Proof.
  intros Hall. specialize (Hall "-5" (-5)%Z eq_refl). lia.
Qed.

Lemma handshake_accepts_integers_witness :
  Host.Atoi "x5000" = None /\ Host.main (Host.Line "x5000") = Host.Fatal.
Proof.
  split; [reflexivity|].
  destruct (handshake_accepts_integers Host.Timeout) as [_ [_ [Hbad _]]].
  apply Hbad. reflexivity.
Defined.

(* ------------------------------------------------------------------ *)
(** ** Further properties: the vote *)
(* ------------------------------------------------------------------ *)

Lemma getIndexOfMax_from_spec (rest : list nat) :
  forall (pre : list nat) (max mi : nat),
  (mi < List.length pre)%nat ->
  nth mi pre O = max ->
  (forall i, (i < List.length pre)%nat ->
     (nth i pre O <= max)%nat /\ (nth i pre O = max -> (mi <= i)%nat)) ->
  exists m,
    Permissive.getIndexOfMax_from (Z.of_nat (List.length pre)) rest max
      (Z.of_nat mi) = Z.of_nat m
    /\ (m < List.length (pre ++ rest))%nat
    /\ forall i, (i < List.length (pre ++ rest))%nat ->
         (nth i (pre ++ rest) O <= nth m (pre ++ rest) O)%nat
         /\ (nth i (pre ++ rest) O = nth m (pre ++ rest) O -> (m <= i)%nat).
Proof.
  induction rest as [|a rest IH]; intros pre max mi Hmi Hmax Hpre; simpl.
  - exists mi. rewrite app_nil_r. split; [reflexivity|]. split; [exact Hmi|].
    intros i Hi. rewrite Hmax. now apply Hpre.
  - assert (Hlen : (Z.of_nat (List.length pre) + 1)%Z
                   = Z.of_nat (List.length (pre ++ [a])))
      by (rewrite length_app; simpl; lia).
    assert (Hsplit : pre ++ a :: rest = (pre ++ [a]) ++ rest)
      by (now rewrite <- app_assoc).
    rewrite Hlen, Hsplit.
    assert (Hold : forall i, (i < List.length pre)%nat ->
              nth i (pre ++ [a]) O = nth i pre O)
      by (intros i Hi; now apply app_nth1).
    assert (Hnew : nth (List.length pre) (pre ++ [a]) O = a)
      by (rewrite app_nth2, Nat.sub_diag by lia; reflexivity).
    destruct (Nat.ltb_spec max a) as [Hlt|Hge].
    + apply IH.
      * rewrite length_app. simpl. lia.
      * exact Hnew.
      * intros i Hi. rewrite length_app in Hi. simpl in Hi.
        destruct (Nat.eq_dec i (List.length pre)) as [->|Hne].
        -- rewrite Hnew. split; [lia | intros _; lia].
        -- rewrite Hold by lia. destruct (Hpre i ltac:(lia)) as [Hle _].
           split; lia.
    + apply IH.
      * rewrite length_app. simpl. lia.
      * now rewrite Hold.
      * intros i Hi. rewrite length_app in Hi. simpl in Hi.
        destruct (Nat.eq_dec i (List.length pre)) as [->|Hne].
        -- rewrite Hnew. split; [lia | intros _; lia].
        -- rewrite Hold by lia. apply Hpre. lia.
Qed.

(** X1. [getIndexOfMax] answers -1 for the empty array and for no
    other; on any other array it answers the index of a largest element,
    and of the first one when several are the largest. *)
Theorem getIndexOfMax_first_largest (arr : list nat) :
  (Permissive.getIndexOfMax arr = (-1)%Z <-> arr = [])
  /\ (arr <> [] ->
      exists m,
        Permissive.getIndexOfMax arr = Z.of_nat m
        /\ (m < List.length arr)%nat
        /\ forall i, (i < List.length arr)%nat ->
             (nth i arr O <= nth m arr O)%nat
             /\ (nth i arr O = nth m arr O -> (m <= i)%nat)).
Proof.
  assert (Hsome : forall a rest,
            exists m,
              Permissive.getIndexOfMax (a :: rest) = Z.of_nat m
              /\ (m < List.length (a :: rest))%nat
              /\ forall i, (i < List.length (a :: rest))%nat ->
                   (nth i (a :: rest) O <= nth m (a :: rest) O)%nat
                   /\ (nth i (a :: rest) O = nth m (a :: rest) O ->
                       (m <= i)%nat)).
  { intros a rest.
    apply (getIndexOfMax_from_spec rest [a] a 0%nat); simpl; auto.
    intros [|i] Hi; simpl; [split; lia | lia]. }
  split.
  - destruct arr as [|a rest]; [split; reflexivity|].
    destruct (Hsome a rest) as [m [Hm _]]. rewrite Hm.
    split; [lia | discriminate].
  - destruct arr as [|a rest]; [congruence | intros _; apply Hsome].
Qed.

Lemma getIndexOfMax_first_largest_witness :
  [2; 7; 7; 1]%nat <> []
  /\ exists m,
       Permissive.getIndexOfMax [2; 7; 7; 1]%nat = Z.of_nat m
       /\ (m < 4)%nat.
Proof.
  assert (Hne : [2; 7; 7; 1]%nat <> []) by discriminate.
  split; [exact Hne|].
  destruct (proj2 (getIndexOfMax_first_largest [2; 7; 7; 1]%nat) Hne)
    as [m [Hm [Hlt _]]].
  exists m. split; [exact Hm | exact Hlt].
Defined.

(* ------------------------------------------------------------------ *)
(** ** Further properties: the known schemas *)
(* ------------------------------------------------------------------ *)

Lemma matchesHeader_iff (header : list string) (known : Schema.t) :
  matchesHeader header known = true
  <-> getPropertyNames (Schema.properties known) = header.
Proof.
  unfold matchesHeader, areEqualArray.
  destruct (list_eq_dec string_dec
              (getPropertyNames (Schema.properties known)) header) as [Heq|Hne].
  - rewrite andb_true_r. split; [intros _; exact Heq|]. intros _.
    apply Nat.eqb_eq. rewrite <- Heq. unfold getPropertyNames.
    now rewrite length_map.
  - rewrite andb_false_r. split; [discriminate | congruence].
Qed.

Lemma find_app_found {A : Type} (f : A -> bool) (l l' : list A) (a : A) :
  find f l = Some a -> find f (l ++ l') = Some a.
Proof.
  induction l as [|x l IH]; simpl; [discriminate|].
  destruct (f x); auto.
Qed.

Lemma find_app_missing {A : Type} (f : A -> bool) (l l' : list A) :
  find f l = None -> find f (l ++ l') = find f l'.
Proof.
  induction l as [|x l IH]; simpl; [reflexivity|].
  destruct (f x); [discriminate | auto].
Qed.

(** [checkKnownSchemas] keeps the headers of the known schemas apart when
    the schema it is given has the property names [header]. *)
Lemma checkKnownSchemas_nodup (schema : Schema.t)
    (header : list string) (knownSchemas : list Schema.t) :
  NoDup (map (fun k => getPropertyNames (Schema.properties k)) knownSchemas) ->
  getPropertyNames (Schema.properties schema) = header ->
  NoDup (map (fun k => getPropertyNames (Schema.properties k))
             (snd (checkKnownSchemas schema header knownSchemas))).
Proof.
  intros Hnodup Hnames. unfold checkKnownSchemas.
  destruct (find (matchesHeader header) knownSchemas) as [known|] eqn:Hfind;
    simpl; [exact Hnodup|].
  rewrite map_app. simpl.
  apply NoDup_app; [exact Hnodup | repeat constructor; auto |].
  intros names Hin [Heq|[]]. apply in_map_iff in Hin.
  destruct Hin as [k [Hk Hink]].
  apply (find_none _ _ Hfind) in Hink.
  assert (matchesHeader header k = true)
    by (apply matchesHeader_iff; congruence).
  congruence.
Qed.

Section Registry.
Context `{Engine}.

(** The schema of a file whose rows are no wider than the first. *)
Lemma fileSchema_total (filepath : string) (row : Row) (rest : list Row) :
  Forall (fun r : Row => (List.length r <= List.length row)%nat) rest ->
  exists properties,
    Permissive.fileSchema filepath (Object_keys row) (row :: rest)
    = Ok {| Schema.name := schemaName filepath;
            Schema.settings := [filepath];
            Schema.properties := properties |}
    /\ getPropertyNames properties = Object_keys row.
Proof.
  intros Hrest.
  destruct (countRows_zeros row rest Hrest) as [tca [Hrun [Hlen [Hfive _]]]].
  destruct (pushProperties_spec (Object_keys row) tca EmptyString Hlen Hfive)
    as [Hnames _].
  eexists. split; [|exact Hnames].
  unfold Permissive.fileSchema. now rewrite Hrun.
Qed.

Lemma firstRowProperties_names (row : Row) :
  getPropertyNames (Strict.firstRowProperties row) = Object_keys row.
Proof.
  unfold getPropertyNames, Strict.firstRowProperties, Object_keys.
  rewrite map_map. reflexivity.
Qed.

(** X4. The first file of a header decides.  Once [getSchema] has
    registered the schema of a file, a later file whose first row has the
    same keys resolves with the name and the properties of that first
    schema and with its own path as [settings], whatever was registered in
    between, and the known schemas stay as they are.  In the first version
    this holds for every such later file, whatever its rows are.  In the
    version that votes it holds for the later files with no row wider than
    their first row, whatever the values of those rows are; a later file
    with a wider row throws instead, and the known schemas stay as they are
    as well. *)
Theorem getSchema_first_file_decides (f1 f2 : string) (row1 row2 : Row)
    (rest1 rest2 : list Row) (knownSchemas later : list Schema.t) :
  find (matchesHeader (Object_keys row1)) knownSchemas = None ->
  Object_keys row2 = Object_keys row1 ->
  (exists s1,
     Strict.getSchema f1 (row1 :: rest1) knownSchemas
     = (Ok s1, knownSchemas ++ [s1])
     /\ Strict.getSchema f2 (row2 :: rest2) (knownSchemas ++ [s1] ++ later)
        = (Ok {| Schema.name := Schema.name s1;
                 Schema.settings := [f2];
                 Schema.properties := Schema.properties s1 |},
           knownSchemas ++ [s1] ++ later))
  /\ (Forall (fun r : Row => (List.length r <= List.length row1)%nat) rest1 ->
      exists s1,
        Permissive.getSchema f1 (row1 :: rest1) knownSchemas
        = (Ok s1, knownSchemas ++ [s1])
        /\ (Forall (fun r : Row => (List.length r <= List.length row2)%nat)
                   rest2 ->
            Permissive.getSchema f2 (row2 :: rest2)
              (knownSchemas ++ [s1] ++ later)
            = (Ok {| Schema.name := Schema.name s1;
                     Schema.settings := [f2];
                     Schema.properties := Schema.properties s1 |},
               knownSchemas ++ [s1] ++ later))
        /\ (Exists (fun r : Row => (List.length row2 < List.length r)%nat)
                   rest2 ->
            Permissive.getSchema f2 (row2 :: rest2)
              (knownSchemas ++ [s1] ++ later)
            = (TypeError, knownSchemas ++ [s1] ++ later))).
Proof.
  intros Hfresh Hkeys.
  assert (Hlookup : forall s1,
            getPropertyNames (Schema.properties s1) = Object_keys row1 ->
            find (matchesHeader (Object_keys row2))
                 (knownSchemas ++ [s1] ++ later) = Some s1).
  { intros s1 Hs1. rewrite Hkeys, find_app_missing by exact Hfresh.
    simpl. now rewrite (proj2 (matchesHeader_iff _ _) Hs1). }
  split.
  - eexists. split.
    + unfold Strict.getSchema, checkKnownSchemas. rewrite Hfresh. reflexivity.
    + unfold Strict.getSchema, checkKnownSchemas.
      rewrite Hlookup by apply firstRowProperties_names. reflexivity.
  - intros Hrest1.
    destruct (fileSchema_total f1 row1 rest1 Hrest1) as [p1 [Hrun1 Hnames1]].
    eexists. split; [|split].
    + unfold Permissive.getSchema. rewrite Hrun1.
      unfold checkKnownSchemas. rewrite Hfresh. reflexivity.
    + intros Hrest2.
      destruct (fileSchema_total f2 row2 rest2 Hrest2) as [p2 [Hrun2 _]].
      unfold Permissive.getSchema. rewrite Hrun2.
      unfold checkKnownSchemas. rewrite Hlookup by exact Hnames1.
      reflexivity.
    + intros Hwide. unfold Permissive.getSchema.
      now rewrite (fileSchema_wide_row f2 row2 rest2 Hwide).
Qed.

End Registry.

Lemma getSchema_first_file_decides_witness :
  exists s1,
    Permissive.getSchema "data/ids.csv" Sample.tenRows [] = (Ok s1, [s1])
    /\ Permissive.getSchema "data/names.csv" [[("id", "blue")]] [s1]
       = (Ok {| Schema.name := Schema.name s1;
                Schema.settings := ["data/names.csv"];
                Schema.properties := Schema.properties s1 |}, [s1])
    /\ Permissive.getSchema "data/wide.csv"
         [[("id", "7")]; [("id", "8"); ("field2", "9")]] [s1]
       = (TypeError, [s1]).
Proof.
  assert (Hrows : Forall (fun r : Row => (List.length r <= 1)%nat)
                    (tl Sample.tenRows)) by repeat constructor.
  assert (Hwide : Exists (fun r : Row => (1 < List.length r)%nat)
                    [[("id", "8"); ("field2", "9")]])
    by (constructor; simpl; lia).
  destruct (getSchema_first_file_decides "data/ids.csv" "data/names.csv"
              [("id", "1")] [("id", "blue")] (tl Sample.tenRows) [] [] []
              eq_refl eq_refl)
    as [_ Hvote].
  destruct (Hvote Hrows) as [s1 [Hfirst [Hsecond _]]].
  destruct (getSchema_first_file_decides "data/ids.csv" "data/wide.csv"
              [("id", "1")] [("id", "7")] (tl Sample.tenRows)
              [[("id", "8"); ("field2", "9")]] [] []
              eq_refl eq_refl)
    as [_ Hvote'].
  destruct (Hvote' Hrows) as [s1' [Hfirst' [_ Hthrow]]].
  assert (Hsame : s1' = s1).
  { change ([] ++ [s1']) with [s1'] in Hfirst'.
    change ([] ++ [s1]) with [s1] in Hfirst.
    change ([("id", "1")] :: tl Sample.tenRows) with Sample.tenRows
      in Hfirst, Hfirst'.
    congruence. }
  subst s1'.
  exists s1. split; [exact Hfirst|]. split.
  - exact (Hsecond (Forall_nil _)).
  - exact (Hthrow Hwide).
Defined.

(* ------------------------------------------------------------------ *)
(** ** Further properties: Discover *)
(* ------------------------------------------------------------------ *)

Lemma sameProperty_eq (p q : Property.t) :
  Plugin.sameProperty p q = true <-> p = q.
Proof.
  unfold Plugin.sameProperty. rewrite andb_true_iff, !String.eqb_eq.
  destruct p, q; simpl. split; [intros [-> ->]; reflexivity|].
  intros [= -> ->]. now split.
Qed.

Lemma areEqualProperties_eq (a b : list Property.t) :
  Plugin.areEqualProperties a b = true <-> a = b.
Proof.
  revert b; induction a as [|p a IH]; intros [|q b]; simpl;
    try (split; [discriminate | discriminate]); [tauto|].
  rewrite andb_true_iff, sameProperty_eq, IH.
  split; [intros [-> ->]; reflexivity | intros [= -> ->]; now split].
Qed.

Lemma pushSetting_missing (value : Schema.t) (output : list Schema.t) :
  Plugin.pushSetting value output = None
  <-> ~ In (Schema.properties value) (map Schema.properties output).
Proof.
  induction output as [|o rest IH]; simpl; [tauto|].
  destruct (Plugin.areEqualProperties (Schema.properties o)
              (Schema.properties value)) eqn:Heq.
  - apply areEqualProperties_eq in Heq. split; [discriminate | tauto].
  - assert (Hne : Schema.properties o <> Schema.properties value).
    { intros E. apply areEqualProperties_eq in E. congruence. }
    destruct (Plugin.pushSetting value rest).
    + split; [discriminate|]. intros Hn.
      assert (Hrest : ~ In (Schema.properties value)
                          (map Schema.properties rest)) by tauto.
      apply IH in Hrest. discriminate.
    + split; [|reflexivity]. intros _ [E|Hin]; [now apply Hne|].
      now apply IH.
Qed.

Lemma pushSetting_found (value : Schema.t) (output output' : list Schema.t) :
  Plugin.pushSetting value output = Some output' ->
  exists pre o post,
    output = pre ++ o :: post
    /\ Schema.properties o = Schema.properties value
    /\ ~ In (Schema.properties value) (map Schema.properties pre)
    /\ output' = pre ++ {| Schema.name := Schema.name o;
                           Schema.settings :=
                             Schema.settings o ++ Plugin.firstSetting value;
                           Schema.properties := Schema.properties o |} :: post.
Proof.
  revert output'; induction output as [|o rest IH]; intros output' Hpush;
    simpl in Hpush; [discriminate|].
  destruct (Plugin.areEqualProperties (Schema.properties o)
              (Schema.properties value)) eqn:Heq.
  - injection Hpush as <-. apply areEqualProperties_eq in Heq.
    exists [], o, rest. simpl. repeat split; auto.
  - destruct (Plugin.pushSetting value rest) as [rest'|]; [|discriminate].
    injection Hpush as <-.
    destruct (IH rest' eq_refl) as [pre [x [post [-> [Hx [Hpre ->]]]]]].
    exists (o :: pre), x, post. simpl. repeat split; auto.
    intros [E|Hin]; [|now apply Hpre].
    apply areEqualProperties_eq in E. congruence.
Qed.

Lemma mergeValue_cases (output : list Schema.t) (value : Schema.t) :
  Plugin.mergeValue output value
  = match Plugin.pushSetting value output with
    | Some output' => output'
    | None => output ++ [value]
    end.
Proof.
  destruct output; reflexivity.
Qed.

Lemma mergeValues_snoc (values : list Schema.t) (value : Schema.t) :
  Plugin.mergeValues (values ++ [value])
  = Plugin.mergeValue (Plugin.mergeValues values) value.
Proof.
  unfold Plugin.mergeValues. now rewrite fold_left_app.
Qed.

Lemma filter_other_properties (values : list Schema.t) (value o : Schema.t) :
  Schema.properties o <> Schema.properties value ->
  filter (fun v => Plugin.areEqualProperties
                     (Schema.properties v) (Schema.properties o))
         (values ++ [value])
  = filter (fun v => Plugin.areEqualProperties
                       (Schema.properties v) (Schema.properties o))
           values.
Proof.
  intros Hne. rewrite filter_app. simpl.
  destruct (Plugin.areEqualProperties (Schema.properties value)
              (Schema.properties o)) eqn:E; [|now rewrite app_nil_r].
  apply areEqualProperties_eq in E. congruence.
Qed.

Lemma filter_same_properties (values : list Schema.t) (value o : Schema.t) :
  Schema.properties o = Schema.properties value ->
  filter (fun v => Plugin.areEqualProperties
                     (Schema.properties v) (Schema.properties o))
         (values ++ [value])
  = filter (fun v => Plugin.areEqualProperties
                       (Schema.properties v) (Schema.properties o))
           values ++ [value].
Proof.
  intros Heq. rewrite filter_app. simpl.
  now rewrite (proj2 (areEqualProperties_eq _ _) (eq_sym Heq)).
Qed.

Lemma filter_no_properties (values : list Schema.t) (value : Schema.t) :
  ~ In (Schema.properties value) (map Schema.properties values) ->
  filter (fun v => Plugin.areEqualProperties
                     (Schema.properties v) (Schema.properties value))
         values = [].
Proof.
  induction values as [|v vs IH]; simpl; [reflexivity|]. intros Hn.
  destruct (Plugin.areEqualProperties (Schema.properties v)
              (Schema.properties value)) eqn:E.
  - apply areEqualProperties_eq in E. tauto.
  - apply IH. tauto.
Qed.

(** One turn of the merge keeps the invariants of the merged list. *)
Lemma mergeValue_step (values out : list Schema.t) (value : Schema.t) :
  Plugin.firstSetting value = Schema.settings value ->
  NoDup (map Schema.properties out) ->
  (forall p, In p (map Schema.properties out)
             <-> In p (map Schema.properties values)) ->
  (forall o, In o out ->
     (exists v, In v values /\ Schema.name o = Schema.name v
                /\ Schema.properties o = Schema.properties v)
     /\ Schema.settings o
        = flat_map Schema.settings
            (filter (fun v => Plugin.areEqualProperties
                                (Schema.properties v) (Schema.properties o))
                    values)) ->
  Permutation (flat_map Schema.settings out)
              (flat_map Schema.settings values) ->
  NoDup (map Schema.properties (Plugin.mergeValue out value))
  /\ (forall p, In p (map Schema.properties (Plugin.mergeValue out value))
                <-> In p (map Schema.properties (values ++ [value])))
  /\ (forall o, In o (Plugin.mergeValue out value) ->
        (exists v, In v (values ++ [value]) /\ Schema.name o = Schema.name v
                   /\ Schema.properties o = Schema.properties v)
        /\ Schema.settings o
           = flat_map Schema.settings
               (filter (fun v => Plugin.areEqualProperties
                                   (Schema.properties v) (Schema.properties o))
                       (values ++ [value])))
  /\ Permutation (flat_map Schema.settings (Plugin.mergeValue out value))
                 (flat_map Schema.settings (values ++ [value])).
Proof.
  intros Hfirst Hnodup Hprops Hgroups Hperm.
  assert (Hold : forall y, In y out ->
            Schema.properties y <> Schema.properties value ->
            (exists v, In v (values ++ [value])
                       /\ Schema.name y = Schema.name v
                       /\ Schema.properties y = Schema.properties v)
            /\ Schema.settings y
               = flat_map Schema.settings
                   (filter (fun v => Plugin.areEqualProperties
                               (Schema.properties v) (Schema.properties y))
                           (values ++ [value]))).
  { intros y Hy Hne. destruct (Hgroups y Hy) as [[v [Hv Hnp]] Hset].
    split; [exists v; split; [apply in_or_app; now left | exact Hnp]|].
    now rewrite filter_other_properties. }
  rewrite mergeValue_cases.
  destruct (Plugin.pushSetting value out) as [out'|] eqn:Hpush.
  - destruct (pushSetting_found _ _ _ Hpush)
      as [pre [o [post [-> [Ho [Hpre ->]]]]]].
    assert (Hmap : forall x : Schema.t,
              Schema.properties x = Schema.properties o ->
              map Schema.properties (pre ++ x :: post)
              = map Schema.properties (pre ++ o :: post)).
    { intros x Hx. rewrite !map_app. simpl. now rewrite Hx. }
    assert (Hpost : ~ In (Schema.properties value)
                        (map Schema.properties post)).
    { rewrite map_app in Hnodup. simpl in Hnodup.
      apply NoDup_remove_2 in Hnodup. intros Hin. apply Hnodup.
      apply in_or_app. right. congruence. }
    assert (Hvalue : In (Schema.properties value)
                        (map Schema.properties values)).
    { apply Hprops. rewrite map_app. apply in_or_app. right. simpl. now left. }
    split; [|split; [|split]].
    + now rewrite Hmap.
    + intros p. rewrite Hmap by reflexivity. rewrite Hprops.
      rewrite (map_app _ values), in_app_iff. simpl.
      split; [tauto|]. intros [Hp|[<-|[]]]; assumption.
    + intros x Hx. apply in_app_or in Hx. destruct Hx as [Hx|[<-|Hx]].
      * apply Hold; [apply in_or_app; now left|].
        intros E. apply Hpre. rewrite <- E. now apply in_map.
      * simpl. destruct (Hgroups o) as [[v [Hv Hnp]] Hset].
        { apply in_or_app. right. now left. }
        split; [exists v; split; [apply in_or_app; now left | exact Hnp]|].
        rewrite filter_same_properties by exact Ho.
        rewrite flat_map_app. simpl.
        now rewrite Hset, Hfirst, app_nil_r.
      * apply Hold; [apply in_or_app; right; now right|].
        intros E. apply Hpost. rewrite <- E. now apply in_map.
    + rewrite !flat_map_app in *. simpl in *. rewrite Hfirst, app_nil_r.
      apply Permutation_trans
        with ((flat_map Schema.settings pre
               ++ Schema.settings o ++ flat_map Schema.settings post)
              ++ Schema.settings value);
        [|now apply Permutation_app_tail].
      rewrite <- !app_assoc. apply Permutation_app_head.
      apply Permutation_app_head. apply Permutation_app_comm.
  - apply pushSetting_missing in Hpush.
    split; [|split; [|split]].
    + rewrite map_app. simpl. apply NoDup_app; auto.
      * repeat constructor; auto.
      * intros p Hin [<-|[]]. now apply Hpush.
    + intros p. rewrite !map_app, !in_app_iff. simpl. now rewrite Hprops.
    + intros x Hx. apply in_app_or in Hx. destruct Hx as [Hx|[<-|[]]].
      * apply Hold; [exact Hx|].
        intros E. apply Hpush. rewrite <- E. now apply in_map.
      * split.
        { exists value. split; [apply in_or_app; right; now left|].
          now split. }
        rewrite filter_same_properties by reflexivity.
        rewrite flat_map_app. simpl. rewrite app_nil_r.
        rewrite filter_no_properties; [reflexivity|].
        now rewrite <- Hprops.
    + rewrite !flat_map_app. simpl. now apply Permutation_app_tail.
Qed.

Lemma mergeValues_invariants (values : list Schema.t) :
  Forall (fun v => exists f, Schema.settings v = [f]) values ->
  let output := Plugin.mergeValues values in
  NoDup (map Schema.properties output)
  /\ (forall p, In p (map Schema.properties output)
                <-> In p (map Schema.properties values))
  /\ (forall o, In o output ->
        (exists v, In v values /\ Schema.name o = Schema.name v
                   /\ Schema.properties o = Schema.properties v)
        /\ Schema.settings o
           = flat_map Schema.settings
               (filter (fun v => Plugin.areEqualProperties
                                   (Schema.properties v) (Schema.properties o))
                       values))
  /\ Permutation (flat_map Schema.settings output)
                 (flat_map Schema.settings values).
Proof.
  induction values as [|value values IH] using rev_ind; intros Hone output.
  - subst output. simpl. repeat split; try tauto; constructor.
  - apply Forall_app in Hone. destruct Hone as [Hone Hvalue].
    inversion Hvalue as [|? ? [f Hf] _]; subst.
    destruct (IH Hone) as [Hnodup [Hprops [Hgroups Hperm]]].
    subst output. rewrite mergeValues_snoc.
    apply mergeValue_step; auto.
    unfold Plugin.firstSetting. now rewrite Hf.
Qed.

(** X5. The merge of [Discover] on schemas that carry one path each,
    as [getSchema] gives them: no two answered schemas have the same
    properties, the answered properties are those of the values, every
    answered schema has the name of a value with its properties, and its
    [settings] are the paths of the values with its properties, in the
    order of the values.  So every path is answered once, under the schema
    of its properties. *)
Theorem mergeValues_groups_paths (values : list Schema.t) :
  Forall (fun v => exists f, Schema.settings v = [f]) values ->
  let output := Plugin.mergeValues values in
  NoDup (map Schema.properties output)
  /\ (forall p, In p (map Schema.properties output)
                <-> In p (map Schema.properties values))
  /\ (forall o, In o output ->
        (exists v, In v values /\ Schema.name o = Schema.name v
                   /\ Schema.properties o = Schema.properties v)
        /\ Schema.settings o
           = flat_map Schema.settings
               (filter (fun v => Plugin.areEqualProperties
                                   (Schema.properties v) (Schema.properties o))
                       values))
  /\ Permutation (flat_map Schema.settings output)
                 (flat_map Schema.settings values).
Proof.
  intros Hone output.
  destruct (mergeValues_invariants values Hone)
    as [Hnodup [Hprops [Hgroups Hperm]]].
  split; [exact Hnodup|]. split; [exact Hprops|].
  split; [exact Hgroups | exact Hperm].
Qed.

Lemma mergeValues_groups_paths_witness :
  let ids f := {| Schema.name := f; Schema.settings := [f];
                  Schema.properties := Sample.idOnly |} in
  let animals f := {| Schema.name := f; Schema.settings := [f];
                      Schema.properties := Sample.animals |} in
  Forall (fun v => exists f, Schema.settings v = [f])
         [ids "a.csv"; animals "b.csv"; ids "c.csv"]
  /\ Permutation
       (flat_map Schema.settings
          (Plugin.mergeValues [ids "a.csv"; animals "b.csv"; ids "c.csv"]))
       ["a.csv"; "b.csv"; "c.csv"].
Proof.
  intros ids animals.
  assert (Hone : Forall (fun v => exists f, Schema.settings v = [f])
                   [ids "a.csv"; animals "b.csv"; ids "c.csv"]).
  { repeat constructor; eexists; reflexivity. }
  split; [exact Hone|].
  apply (mergeValues_groups_paths _ Hone).
Defined.

Section DiscoverRun.
Context `{Engine}.

(** What [getSchema] does to the known schemas and what it resolves
    with. *)
Lemma getSchema_known (filepath : string) (data : list Row)
    (knownSchemas : list Schema.t) :
  NoDup (map (fun k => getPropertyNames (Schema.properties k)) knownSchemas) ->
  let r := fst (Permissive.getSchema filepath data knownSchemas) in
  let knownSchemas' := snd (Permissive.getSchema filepath data knownSchemas) in
  NoDup (map (fun k => getPropertyNames (Schema.properties k)) knownSchemas')
  /\ (exists added, knownSchemas' = knownSchemas ++ added)
  /\ (forall s, r = Ok s ->
        Schema.settings s = [filepath]
        /\ getPropertyNames (Schema.properties s) = Object_keys (hd [] data)
        /\ exists k, In k knownSchemas'
                     /\ Schema.name s = Schema.name k
                     /\ Schema.properties s = Schema.properties k).
Proof.
  intros Hnodup. unfold Permissive.getSchema.
  destruct data as [|row rest]; simpl.
  - split; [exact Hnodup|]. split; [exists []; now rewrite app_nil_r|].
    discriminate.
  - destruct (Permissive.fileSchema filepath (Object_keys row) (row :: rest))
      as [schema|] eqn:Hfile; simpl.
    + assert (Hwidth := fileSchema_ok_width _ _ _ _ Hfile).
      destruct (fileSchema_total filepath row rest Hwidth)
        as [properties [Hrun Hnames]].
      rewrite Hrun in Hfile. injection Hfile as <-.
      pose proof (checkKnownSchemas_nodup
                    {| Schema.name := schemaName filepath;
                       Schema.settings := [filepath];
                       Schema.properties := properties |}
                    (Object_keys row) knownSchemas Hnodup Hnames) as Hnodup'.
      unfold checkKnownSchemas in *.
      destruct (find (matchesHeader (Object_keys row)) knownSchemas)
        as [known|] eqn:Hfind; simpl in *.
      * split; [exact Hnodup|]. split; [exists []; now rewrite app_nil_r|].
        intros s [= <-]. simpl. split; [reflexivity|].
        assert (Hin := find_some _ _ Hfind). destruct Hin as [Hin Hmatch].
        split; [now apply matchesHeader_iff|].
        exists known. now repeat split.
      * split; [exact Hnodup'|]. split; [eexists; reflexivity|].
        intros s [= <-]. simpl. split; [reflexivity|]. split; [exact Hnames|].
        eexists. split; [apply in_or_app; right; now left|]. now split.
    + split; [exact Hnodup|]. split; [exists []; now rewrite app_nil_r|].
      discriminate.
Qed.

(** X3. Whatever the files and whatever the order of their reads, the
    run of the [getSchema] callbacks keeps the known schemas and appends to
    them, and keeps their headers apart: when no two known schemas had the
    same property names before, no two have afterwards.  A file whose
    callback throws changes nothing. *)
Theorem runGetSchema_keeps_headers_apart (read : string -> list Row)
    (completion : list string) (knownSchemas : list Schema.t) :
  NoDup (map (fun k => getPropertyNames (Schema.properties k)) knownSchemas) ->
  let knownSchemas' :=
    snd (Plugin.runGetSchema read completion knownSchemas) in
  NoDup (map (fun k => getPropertyNames (Schema.properties k)) knownSchemas')
  /\ (exists added, knownSchemas' = knownSchemas ++ added)
  /\ (forall filepath,
        fst (Permissive.getSchema filepath (read filepath) knownSchemas)
        = TypeError ->
        snd (Permissive.getSchema filepath (read filepath) knownSchemas)
        = knownSchemas).
Proof.
  intros Hnodup. split; [|split].
  - revert knownSchemas Hnodup.
    induction completion as [|f rest IH]; intros known Hnodup; simpl;
      [exact Hnodup|].
    destruct (getSchema_known f (read f) known Hnodup) as [Hnodup1 _].
    destruct (Permissive.getSchema f (read f) known) as [r known1].
    specialize (IH known1 Hnodup1).
    destruct (Plugin.runGetSchema read rest known1). exact IH.
  - clear Hnodup. revert knownSchemas.
    induction completion as [|f rest IH]; intros known; simpl;
      [exists []; now rewrite app_nil_r|].
    assert (Hgrow : exists added,
              snd (Permissive.getSchema f (read f) known) = known ++ added).
    { unfold Permissive.getSchema. destruct (read f) as [|row more];
        [exists []; now rewrite app_nil_r|].
      destruct (Permissive.fileSchema f (Object_keys row) (row :: more));
        [|exists []; now rewrite app_nil_r].
      unfold checkKnownSchemas.
      destruct (find _ known); simpl;
        [exists []; now rewrite app_nil_r | eexists; reflexivity]. }
    destruct Hgrow as [added1 Hadded1].
    destruct (Permissive.getSchema f (read f) known) as [r known1].
    simpl in Hadded1. subst known1.
    destruct (IH (known ++ added1)) as [added2 Hadded2].
    destruct (Plugin.runGetSchema read rest (known ++ added1)). simpl in *.
    exists (added1 ++ added2). now rewrite app_assoc.
  - intros filepath. unfold Permissive.getSchema.
    destruct (read filepath) as [|row more]; [reflexivity|].
    destruct (Permissive.fileSchema _ _ _); [|reflexivity].
    destruct (checkKnownSchemas _ _ _). discriminate.
Qed.

End DiscoverRun.

Lemma runGetSchema_keeps_headers_apart_witness :
  NoDup (map (fun k => getPropertyNames (Schema.properties k))
             (snd (Plugin.runGetSchema
                     (fun f => if String.eqb f "empty.csv" then []
                               else Sample.tenRows)
                     ["a.csv"; "empty.csv"; "b.csv"] []))).
Proof.
  apply runGetSchema_keeps_headers_apart. constructor.
Defined.

Lemma NoDup_map_injective {A B : Type} (g : A -> B) (l : list A) (x y : A) :
  NoDup (map g l) -> In x l -> In y l -> g x = g y -> x = y.
Proof.
  induction l as [|a l IH]; simpl; [tauto|].
  intros Hnodup Hx Hy Heq. inversion Hnodup as [|? ? Hnotin Hrest]; subst.
  destruct Hx as [->|Hx], Hy as [->|Hy]; auto.
  - exfalso. apply Hnotin. rewrite Heq. now apply in_map.
  - exfalso. apply Hnotin. rewrite <- Heq. now apply in_map.
Qed.

Lemma NoDup_map_coarser {A B C : Type} (f : A -> B) (g : B -> C)
    (l : list A) :
  NoDup (map f l) ->
  (forall x y, In x l -> In y l -> g (f x) = g (f y) -> f x = f y) ->
  NoDup (map (fun a => g (f a)) l).
Proof.
  induction l as [|a l IH]; simpl; intros Hnodup Hinj; [constructor|].
  inversion Hnodup as [|? ? Hnotin Hrest]; subst. constructor.
  - intros Hin. apply in_map_iff in Hin. destruct Hin as [x [Hx Hxl]].
    apply Hnotin. rewrite <- (Hinj x a); auto. now apply in_map.
  - apply IH; auto.
Qed.

Section DiscoverAnswer.
Context `{Engine}.

Variable read : string -> list Row.

Lemma getSchema_readable (f : string) (knownSchemas : list Schema.t) :
  DiscoverProps.readable read f ->
  exists s, fst (Permissive.getSchema f (read f) knownSchemas) = Ok s.
Proof.
  intros [row [rest [Hread Hwidth]]]. rewrite Hread.
  destruct (fileSchema_total f row rest Hwidth) as [p [Hrun _]].
  unfold Permissive.getSchema. rewrite Hrun.
  destruct (checkKnownSchemas _ _ _). eexists. reflexivity.
Qed.

Lemma runGetSchema_resolved (completion : list string) :
  forall knownSchemas : list Schema.t,
  NoDup (map (fun k => getPropertyNames (Schema.properties k)) knownSchemas) ->
  Forall (DiscoverProps.readable read) completion ->
  let results := fst (Plugin.runGetSchema read completion knownSchemas) in
  let knownSchemas' :=
    snd (Plugin.runGetSchema read completion knownSchemas) in
  map fst results = completion
  /\ NoDup (map (fun k => getPropertyNames (Schema.properties k))
                knownSchemas')
  /\ (forall k, In k knownSchemas -> In k knownSchemas')
  /\ Forall (DiscoverProps.resolved read knownSchemas') results.
Proof.
  induction completion as [|f rest IH]; intros known Hnodup Hread; simpl.
  - repeat split; auto.
  - inversion Hread as [|? ? Hf Hrest]; subst.
    destruct (getSchema_known f (read f) known Hnodup)
      as [Hnodup1 [[added Hadded] Hok]].
    destruct (getSchema_readable f known Hf) as [s Hs].
    destruct (Permissive.getSchema f (read f) known) as [r known1].
    simpl in *. subst r.
    destruct (IH known1 Hnodup1 Hrest) as [Hfst [Hnodup' [Hincl Hres]]].
    destruct (Plugin.runGetSchema read rest known1) as [rs known2].
    simpl in *. split; [now rewrite Hfst|]. split; [exact Hnodup'|]. split.
    + intros k Hk. apply Hincl. rewrite Hadded. apply in_or_app. now left.
    + constructor; [|exact Hres].
      destruct (Hok s eq_refl) as [Hset [Hnames [k [Hk [Hname Hprops]]]]].
      exists s, k. simpl. repeat split; auto.
Qed.

Lemma allValues_resolved (knownSchemas : list Schema.t)
    (results : list (string * result Schema.t)) (files : list string) :
  Forall (DiscoverProps.resolved read knownSchemas) results ->
  incl files (map fst results) ->
  exists values,
    Plugin.allValues files results = Some values
    /\ Forall2 (fun f v => DiscoverProps.resolved read knownSchemas (f, Ok v))
               files values.
Proof.
  intros Hres. induction files as [|f files IH]; intros Hincl; simpl.
  - exists []. split; [reflexivity | constructor].
  - destruct IH as [values [Hvalues Hall]].
    { intros x Hx. apply Hincl. now right. }
    assert (Hf : In f (map fst results)) by (apply Hincl; now left).
    assert (Hvalue : exists v, Plugin.valueOf f results = Some v
                               /\ DiscoverProps.resolved read knownSchemas (f, Ok v)).
    { clear - Hres Hf. induction results as [|[g r] results IHr];
        simpl in *; [tauto|].
      inversion Hres as [|? ? Hg Hrest]; subst.
      destruct (String.eqb_spec g f) as [->|Hne].
      - destruct Hg as [s [k [Hs Hg]]]. simpl in Hs. subst r.
        exists s. split; [reflexivity|]. exists s, k. now split.
      - destruct Hf as [Hf|Hf]; [congruence|]. now apply IHr. }
    destruct Hvalue as [v [Hv Hvres]]. rewrite Hv, Hvalues.
    exists (v :: values). split; [reflexivity | now constructor].
Qed.

(** X6. [Discover] on files that each have a first row and no row wider
    than it, read in any order, with known schemas of pairwise different
    headers: it answers, every file is in the [settings] of exactly one
    answered schema, no two answered schemas have the same property names,
    and the property names of a schema are the keys of the first row of
    each of its files. *)
Theorem Discover_answers_every_file_once (files completion : list string)
    (knownSchemas : list Schema.t) :
  Permutation files completion ->
  NoDup (map (fun k => getPropertyNames (Schema.properties k)) knownSchemas) ->
  Forall (DiscoverProps.readable read) files ->
  exists output,
    fst (Plugin.Discover read files completion knownSchemas) = Some output
    /\ Permutation (flat_map Schema.settings output) files
    /\ NoDup (map (fun o => getPropertyNames (Schema.properties o)) output)
    /\ (forall o f, In o output -> In f (Schema.settings o) ->
          In f files
          /\ getPropertyNames (Schema.properties o)
             = Object_keys (hd [] (read f))).
Proof.
  intros Hsched Hnodup Hread.
  assert (Hread' : Forall (DiscoverProps.readable read) completion).
  { apply Forall_forall. intros f Hf. rewrite Forall_forall in Hread.
    apply Hread. eapply Permutation_in; [apply Permutation_sym|]; eauto. }
  destruct (runGetSchema_resolved completion knownSchemas Hnodup Hread')
    as [Hfst [Hnodup' [_ Hres]]].
  unfold Plugin.Discover.
  destruct (Plugin.runGetSchema read completion knownSchemas)
    as [results known']. simpl in *.
  destruct (allValues_resolved known' results files Hres)
    as [values [Hvalues Hall]].
  { rewrite Hfst. intros f Hf. eapply Permutation_in; eauto. }
  rewrite Hvalues. simpl. eexists. split; [reflexivity|].
  assert (Hone : Forall (fun v => exists f, Schema.settings v = [f]) values).
  { clear - Hall. induction Hall as [|f v fs vs Hv _ IH]; constructor; auto.
    destruct Hv as [s [k [Hs [Hset _]]]]. simpl in *.
    injection Hs as <-. now exists f. }
  assert (Hsettings : flat_map Schema.settings values = files).
  { clear - Hall. induction Hall as [|f v fs vs Hv _ IH]; simpl;
      [reflexivity|].
    destruct Hv as [s [k [Hs [Hset _]]]]. simpl in *.
    injection Hs as <-. now rewrite Hset, IH. }
  assert (Hvalue : forall v, In v values ->
            exists f k, In f files /\ Schema.settings v = [f]
                        /\ getPropertyNames (Schema.properties v)
                           = Object_keys (hd [] (read f))
                        /\ In k known'
                        /\ Schema.properties v = Schema.properties k).
  { clear - Hall. induction Hall as [|f v fs vs Hv _ IH]; simpl; [tauto|].
    intros x [<-|Hx].
    - destruct Hv as [s [k [Hs [Hset [Hnames [Hk [_ Hprops]]]]]]].
      simpl in *. injection Hs as <-. exists f, k. auto 10.
    - destruct (IH x Hx) as [g [k Hg]]. exists g, k. intuition. }
  destruct (mergeValues_invariants values Hone)
    as [Hdistinct [Hprops [Hgroups Hperm]]].
  split; [now rewrite <- Hsettings|]. split.
  - apply (NoDup_map_coarser Schema.properties getPropertyNames);
      [exact Hdistinct|].
    intros x y Hx Hy Heq.
    destruct (Hgroups x Hx) as [[vx [Hvx [_ Hpx]]] _].
    destruct (Hgroups y Hy) as [[vy [Hvy [_ Hpy]]] _].
    destruct (Hvalue vx Hvx) as [_ [kx [_ [_ [_ [Hkx Hx']]]]]].
    destruct (Hvalue vy Hvy) as [_ [ky [_ [_ [_ [Hky Hy']]]]]].
    rewrite Hpx, Hx', Hpy, Hy' in *.
    now rewrite (NoDup_map_injective _ _ kx ky Hnodup' Hkx Hky Heq).
  - intros o f Ho Hf. destruct (Hgroups o Ho) as [_ Hset].
    rewrite Hset in Hf. apply in_flat_map in Hf.
    destruct Hf as [v [Hv Hfv]]. apply filter_In in Hv.
    destruct Hv as [Hv Heq]. apply areEqualProperties_eq in Heq.
    destruct (Hvalue v Hv) as [g [k [Hg [Hsetv [Hnames _]]]]].
    rewrite Hsetv in Hfv. destruct Hfv as [<-|[]].
    split; [exact Hg|]. now rewrite <- Heq.
Qed.

End DiscoverAnswer.

Lemma Discover_answers_every_file_once_witness :
  let read := fun f : string =>
    if String.eqb f "names.csv" then [[("name", "blue")]]
    else Sample.tenRows in
  Permutation ["a.csv"; "names.csv"; "b.csv"] ["b.csv"; "a.csv"; "names.csv"]
  /\ exists output,
       fst (Plugin.Discover read ["a.csv"; "names.csv"; "b.csv"]
              ["b.csv"; "a.csv"; "names.csv"] []) = Some output
       /\ Permutation (flat_map Schema.settings output)
                      ["a.csv"; "names.csv"; "b.csv"].
Proof.
  intros read.
  assert (Hperm : Permutation ["a.csv"; "names.csv"; "b.csv"]
                              ["b.csv"; "a.csv"; "names.csv"]).
  { apply Permutation_trans with ["a.csv"; "b.csv"; "names.csv"].
    - apply perm_skip, perm_swap.
    - apply perm_swap. }
  split; [exact Hperm|].
  destruct (Discover_answers_every_file_once read
              ["a.csv"; "names.csv"; "b.csv"] ["b.csv"; "a.csv"; "names.csv"]
              [] Hperm (NoDup_nil _))
    as [output [Hout [Hfiles _]]].
  - repeat constructor; unfold DiscoverProps.readable, read; simpl;
      eexists; eexists; (split; [reflexivity | repeat constructor]).
  - exists output. split; [exact Hout | exact Hfiles].
Defined.

(* ------------------------------------------------------------------ *)
(** ** Further properties: what a valid record carries *)
(* ------------------------------------------------------------------ *)

Section ValidRecords.
Context `{Engine}.

Lemma getType_boolean_word (c : string) :
  Permissive.getType c = "boolean" ->
  Permissive.convertToType c "boolean" = VBoolean true.
Proof.
  intros Hc. destruct (permissive_firstMatch c) as [_ [_ [_ [Hb _]]]].
  apply Hb in Hc. destruct Hc as [_ Hword].
  apply isWord_permissive in Hword.
  unfold Permissive.convertToType. simpl. now rewrite Hword.
Qed.

Lemma getType_datetime_parses (c : string) :
  Permissive.getType c = "datetime" -> exists t, Date_parse c = Some t.
Proof.
  intros Hc. destruct (permissive_firstMatch c) as [_ [_ [_ [_ [Hd _]]]]].
  apply Hd in Hc. destruct Hc as [_ [_ Hdate]]. unfold parsesAsDate in Hdate.
  destruct (Date_parse c) as [t|]; [now exists t | congruence].
Qed.

(** X7. In a valid record (a row with as many cells as the schema has
    properties and no cell of another type than declared) every cell of a
    boolean column is [true], never [false]; every cell of a datetime
    column is a valid date, the start of the UTC day of what [Date.parse]
    gives for the text; every cell of a string column is the text
    itself. *)
Theorem valid_record_values (call : Call.t) (row : list string) :
  let properties := Request.properties (Call.request call) in
  List.length row = List.length properties ->
  (forall k c tk,
     nth_error row k = Some c -> nth_error properties k = Some tk ->
     Permissive.getType c = Property.type tk) ->
  exists data,
    Permissive.publishRow row call
    = (Ok tt,
       Call.write {| PublishRecord.invalid := false;
                     PublishRecord.error := None;
                     PublishRecord.data := data |} call)
    /\ forall j c tj,
         nth_error row j = Some c -> nth_error properties j = Some tj ->
         (Property.type tj = "boolean" ->
          nth_error data j = Some (VBoolean true))
         /\ (Property.type tj = "datetime" ->
             exists t day,
               Date_parse c = Some t
               /\ nth_error data j = Some (VDate (Some (msPerDay * day)%Z))
               /\ (msPerDay * day <= t < msPerDay * day + msPerDay)%Z)
         /\ (Property.type tj = "string" ->
             nth_error data j = Some (VString c)).
Proof.
  intros properties Hlen Hall.
  assert (Hwf : (List.length row
                 =? List.length (getPropertyTypes properties))%nat = true).
  { unfold getPropertyTypes. rewrite length_map, Hlen. apply Nat.eqb_refl. }
  unfold Permissive.publishRow, Permissive.checkValidTypes.
  fold properties. rewrite Hwf.
  rewrite (checkValidTypes_from_valid row 0 properties).
  - unfold valid. cbn [ValidCheck.invalid ValidCheck.index].
    eexists. split; [reflexivity|].
    intros j c tj Hc Htj.
    assert (Hcell : nth_error (Permissive.convertCells 0 row
                                 (getPropertyTypes properties) None) j
                    = Some (Permissive.convertToType c (Property.type tj))).
    { apply convertCells_nth; auto; [|discriminate].
      unfold getPropertyTypes. simpl. now rewrite nth_error_map, Htj. }
    rewrite Hcell. specialize (Hall j c tj Hc Htj).
    split; [|split]; intros Htype; rewrite Htype in *.
    + now rewrite getType_boolean_word.
    + destruct (getType_datetime_parses c Hall) as [t Ht].
      exists t, (t / msPerDay)%Z. split; [exact Ht|]. split.
      * unfold Permissive.convertToType. simpl. now rewrite Ht.
      * unfold msPerDay.
        pose proof (Z.div_mod t 86400000 ltac:(lia)).
        pose proof (Z.mod_pos_bound t 86400000 ltac:(lia)). lia.
    + reflexivity.
  - intros k c Hc.
    destruct (nth_error properties k) as [tk|] eqn:Htk.
    + exists tk. split; [exact Htk | now apply (Hall k c tk)].
    + apply nth_error_None in Htk.
      assert (k < List.length row)%nat by (apply nth_error_Some; congruence).
      lia.
Qed.

End ValidRecords.

Lemma valid_record_values_witness :
  exists data,
    Permissive.publishRow ["7"; "Vulpes chama"; "F"; "2000-03-01"]
      (Sample.call "animals.csv" Sample.animals)
    = (Ok tt,
       Call.write {| PublishRecord.invalid := false;
                     PublishRecord.error := None;
                     PublishRecord.data := data |}
         (Sample.call "animals.csv" Sample.animals))
    /\ nth_error data 2 = Some (VBoolean true).
Proof.
  destruct (valid_record_values (Sample.call "animals.csv" Sample.animals)
              ["7"; "Vulpes chama"; "F"; "2000-03-01"] eq_refl)
    as [data [Hrun Hcells]].
  - intros [|[|[|[|k]]]] c tk Hc Htk; simpl in Hc, Htk;
      try (destruct k; discriminate);
      injection Hc as <-; injection Htk as <-; reflexivity.
  - exists data. split; [exact Hrun|].
    apply (Hcells 2%nat "F"
             {| Property.name := "extinct"; Property.type := "boolean" |});
      reflexivity.
Defined.

(* ------------------------------------------------------------------ *)
(** ** Further properties: publishFile of the first version *)
(* ------------------------------------------------------------------ *)

Section StrictRows.
Context `{Engine}.

Lemma strict_checkValidTypes_throws (rest : list string) :
  forall (i : nat) (types : list Property.t),
  (i <= List.length types)%nat ->
  StrictPublish.checkValidTypes_from i rest types = TypeError
  <-> (List.length types < i + List.length rest)%nat
      /\ forall j tj, (i <= j)%nat -> nth_error types j = Some tj ->
           exists c, nth_error rest (j - i) = Some c
                     /\ Strict.getType c = Property.type tj.
Proof.
  induction rest as [|p rest IH]; intros i types Hi; simpl.
  - split; [discriminate|]. intros [Hlt _]. lia.
  - destruct (nth_error types i) as [ti|] eqn:Hti.
    + assert (Hlt : (i < List.length types)%nat)
        by (apply nth_error_Some; congruence).
      destruct (String.eqb_spec (Strict.getType p) (Property.type ti))
        as [Heq|Hne]; simpl.
      * rewrite (IH (S i) types Hlt). split.
        -- intros [Hlen Hall]. split; [lia|]. intros j tj Hj Htj.
           destruct (Nat.eq_dec j i) as [->|Hji].
           ++ rewrite Nat.sub_diag. exists p. split; [reflexivity|].
              congruence.
           ++ destruct (Hall j tj ltac:(lia) Htj) as [c [Hc Hct]].
              exists c. split; [|exact Hct].
              replace (j - i)%nat with (S (j - S i)) by lia. exact Hc.
        -- intros [Hlen Hall]. split; [lia|]. intros j tj Hj Htj.
           destruct (Hall j tj ltac:(lia) Htj) as [c [Hc Hct]].
           exists c. split; [|exact Hct].
           replace (j - i)%nat with (S (j - S i)) in Hc by lia. exact Hc.
      * split; [discriminate|]. intros [_ Hall].
        destruct (Hall i ti (le_n _) Hti) as [c [Hc Hct]].
        rewrite Nat.sub_diag in Hc. injection Hc as <-. congruence.
    + apply nth_error_None in Hti. split; [|reflexivity]. intros _.
      split; [lia|]. intros j tj Hj Htj.
      assert (j < List.length types)%nat by (apply nth_error_Some; congruence).
      lia.
Qed.

Lemma strict_publishRow_cases (row : list string) (call : Call.t) :
  (StrictPublish.checkValidTypes row (Request.properties (Call.request call))
   = TypeError
   /\ StrictPublish.publishRow row call = (TypeError, call))
  \/ (StrictPublish.checkValidTypes row
        (Request.properties (Call.request call)) <> TypeError
      /\ exists record,
           StrictPublish.publishRow row call = (Ok tt, Call.write record call)
           /\ List.length (PublishRecord.data record) = List.length row).
Proof.
  unfold StrictPublish.publishRow.
  assert (Hlen : forall types index,
            List.length (StrictPublish.convertCells 0 row types index)
            = List.length row).
  { intros types index. generalize 0%nat.
    induction row as [|c row IH]; intros j; simpl; auto. }
  destruct (StrictPublish.checkValidTypes row _) as [vc|]; [right|left; auto].
  split; [discriminate|].
  destruct (ValidCheck.invalid vc); eexists; (split; [reflexivity|]); simpl.
  - destruct (ValidCheck.index vc); [rewrite setAt_length|]; apply Hlen.
  - apply Hlen.
Qed.

(** X8. [publishFile] of the first version has no test on the length of
    a row.  A row throws, with nothing written, exactly when it has more
    cells than the schema has properties and every cell under a property
    has the declared type; every other row, also one with fewer cells than
    the schema, writes one record with as many cells as the row. *)
Theorem strict_publishRow_throws_on_wide_rows (row : list string)
    (call : Call.t) :
  let properties := Request.properties (Call.request call) in
  let tooWide :=
    (List.length properties < List.length row)%nat
    /\ forall j tj, nth_error properties j = Some tj ->
         exists c, nth_error row j = Some c
                   /\ Strict.getType c = Property.type tj in
  (tooWide -> StrictPublish.publishRow row call = (TypeError, call))
  /\ (~ tooWide ->
      exists record,
        StrictPublish.publishRow row call = (Ok tt, Call.write record call)
        /\ List.length (PublishRecord.data record) = List.length row).
Proof.
  intros properties tooWide.
  assert (Hiff : StrictPublish.checkValidTypes row properties = TypeError
                 <-> tooWide).
  { unfold StrictPublish.checkValidTypes, tooWide.
    rewrite (strict_checkValidTypes_throws row 0 properties) by lia.
    simpl. split; intros [Hlen Hall]; (split; [exact Hlen|]);
      intros j tj.
    - intros Htj. destruct (Hall j tj ltac:(lia) Htj) as [c Hc].
      rewrite Nat.sub_0_r in Hc. now exists c.
    - intros _ Htj. rewrite Nat.sub_0_r. now apply Hall. }
  destruct (strict_publishRow_cases row call) as [[Hthrow Hrun]|[Hok Hrun]];
    fold properties in Hthrow || fold properties in Hok.
  - split; [intros _; exact Hrun|]. intros Hn. exfalso. apply Hn.
    now apply Hiff.
  - split; [|intros _; exact Hrun]. intros Hwide. exfalso. apply Hok.
    now apply Hiff.
Qed.

(** X9. In the first version a row that throws ends the publishing of
    its file: the rows before it are written, the rows after it never
    are. *)
Theorem strict_publishFile_stops_at_throw (before after : list (list string))
    (row : list string) (call : Call.t) :
  fst (StrictPublish.publishFile before call) = Ok tt ->
  fst (StrictPublish.publishRow row
         (snd (StrictPublish.publishFile before call))) = TypeError ->
  StrictPublish.publishFile (before ++ row :: after) call
  = (TypeError, snd (StrictPublish.publishFile before call)).
Proof.
  revert call. induction before as [|r before IH]; intros call Hbefore Hrow;
    simpl in *.
  - destruct (strict_publishRow_cases row call)
      as [[_ Hrun]|[_ [record [Hrun _]]]]; rewrite Hrun in *;
      [reflexivity | discriminate].
  - destruct (StrictPublish.publishRow r call) as [[[]|] call1];
      [|discriminate].
    now apply IH.
Qed.

End StrictRows.

Lemma strict_publishRow_throws_on_wide_rows_witness :
  StrictPublish.publishRow ["7"; "extra"] (Sample.call "a.csv" Sample.idOnly)
  = (TypeError, Sample.call "a.csv" Sample.idOnly).
Proof.
  apply (strict_publishRow_throws_on_wide_rows ["7"; "extra"]
           (Sample.call "a.csv" Sample.idOnly)).
  split; [simpl; lia|].
  intros [|j] tj Htj; simpl in Htj; [|destruct j; discriminate].
  injection Htj as <-. exists "7". split; reflexivity.
Defined.

Lemma strict_publishFile_stops_at_throw_witness :
  Call.written
    (snd (StrictPublish.publishFile [["1"]; ["7"; "extra"]; ["2"]]
            (Sample.call "a.csv" Sample.idOnly)))
  = [Sample.validId "1"].
Proof.
  pose proof (strict_publishFile_stops_at_throw [["1"]] [["2"]]
                ["7"; "extra"] (Sample.call "a.csv" Sample.idOnly)
                eq_refl eq_refl) as Hstop.
  change ([["1"]] ++ ["7"; "extra"] :: [["2"]])
    with [["1"]; ["7"; "extra"]; ["2"]] in Hstop.
  rewrite Hstop. reflexivity.
Defined.

(* ------------------------------------------------------------------ *)
(** ** Further properties: the host *)
(* ------------------------------------------------------------------ *)

Lemma checkProperties_spec (want : list Property.t) :
  forall (have : list Property.t) (namesMatch typesMatch : bool),
  List.length want = List.length have ->
  (fst (HostTests.checkProperties want have namesMatch typesMatch) = true
   <-> namesMatch = true /\ map Property.name want = map Property.name have)
  /\ (snd (HostTests.checkProperties want have namesMatch typesMatch) = true
      <-> typesMatch = true
          /\ map Property.type want = map Property.type have).
Proof.
  induction want as [|pw want IH]; intros [|ph have] n t Hlen;
    simpl in *; try discriminate.
  - split; (split; [intros ->; now split | tauto]).
  - destruct (IH have
                (n && String.eqb (Property.name pw) (Property.name ph))
                (t && String.eqb (Property.type pw) (Property.type ph))
                ltac:(lia)) as [Hn Ht].
    rewrite Hn, Ht, !andb_true_iff, !String.eqb_eq.
    split; (split; [intros [[-> ->] ->]; now split
                   | intros [-> [= -> ->]]; now repeat split]).
Qed.

Lemma checkSchema_names (want have : Schema.t) :
  fst (HostTests.checkSchema want have) = true
  <-> getPropertyNames (Schema.properties want)
      = getPropertyNames (Schema.properties have).
Proof.
  unfold HostTests.checkSchema, getPropertyNames.
  destruct (Nat.eqb_spec (List.length (Schema.properties want))
              (List.length (Schema.properties have))) as [Hlen|Hlen]; simpl.
  - rewrite (proj1 (checkProperties_spec _ _ true true Hlen)). tauto.
  - split; [discriminate|]. intros Heq. exfalso. apply Hlen.
    now rewrite <- (length_map Property.name), Heq, length_map.
Qed.

(** X10. The host compares two schemas by their properties only.
    [checkSchema] reports matching names exactly when the two schemas have
    the same property names in the same order, which is the test
    [checkKnownSchemas] of the plugin uses for a header, and matching types
    exactly when they have as many properties and the same types in the
    same order; the schema names and the settings play no part. *)
Theorem checkSchema_compares_properties (want have : Schema.t) :
  (fst (HostTests.checkSchema want have) = true
   <-> getPropertyNames (Schema.properties want)
       = getPropertyNames (Schema.properties have))
  /\ (snd (HostTests.checkSchema want have) = true
      <-> List.length (Schema.properties want)
          = List.length (Schema.properties have)
          /\ getPropertyTypes (Schema.properties want)
             = getPropertyTypes (Schema.properties have))
  /\ fst (HostTests.checkSchema want have)
     = matchesHeader (getPropertyNames (Schema.properties want)) have.
Proof.
  split; [apply checkSchema_names|]. split.
  - unfold HostTests.checkSchema, getPropertyTypes.
    destruct (Nat.eqb_spec (List.length (Schema.properties want))
                (List.length (Schema.properties have))) as [Hlen|Hlen]; simpl.
    + rewrite (proj2 (checkProperties_spec _ _ true true Hlen)). tauto.
    + split; [discriminate | tauto].
  - destruct (fst (HostTests.checkSchema want have)) eqn:Hc;
      destruct (matchesHeader (getPropertyNames (Schema.properties want))
                  have) eqn:Hm; try reflexivity.
    + apply checkSchema_names in Hc. symmetry in Hc.
      apply matchesHeader_iff in Hc. congruence.
    + apply matchesHeader_iff in Hm. symmetry in Hm.
      apply checkSchema_names in Hm. congruence.
Qed.

(** X11. [findSchemaIn] gives the first discovered schema that has the
    wanted property names, and nil when there is none; [checkSchemaIn]
    reports names found exactly when [findSchemaIn] finds a schema, and its
    verdict on the types is the one on that first schema, whatever the
    types of the schemas after it. *)
Theorem findSchemaIn_first_by_names (want : Schema.t) (in_ : list Schema.t) :
  HostTests.findSchemaIn want in_
  = find (fun have =>
            areEqualArray (getPropertyNames (Schema.properties want))
                          (getPropertyNames (Schema.properties have))) in_
  /\ HostTests.checkSchemaIn want in_
     = match HostTests.findSchemaIn want in_ with
       | Some found => (true, snd (HostTests.checkSchema want found))
       | None => (false, false)
       end.
Proof.
  unfold areEqualArray.
  induction in_ as [|have rest [IHfind IHcheck]]; simpl; [now split|].
  pose proof (checkSchema_names want have) as Hnames.
  destruct (HostTests.checkSchema want have) as [n t] eqn:Hcs. simpl in *.
  destruct (list_eq_dec string_dec
              (getPropertyNames (Schema.properties want))
              (getPropertyNames (Schema.properties have))) as [Heq|Hne].
  - apply Hnames in Heq. subst n. rewrite Hcs. now split.
  - destruct n; [exfalso; apply Hne; now apply Hnames|]. now split.
Qed.

Section RecordChecks.
Variable float64 : Type.
Variable floatEq : float64 -> float64 -> bool.

(** The cell a check looks at equals its value. *)
Lemma evaluate_spec (r : list (HostTests.recordCheck float64))
    (record : HostTests.received float64) :
  match HostTests.evaluate floatEq r record with
  | Some r' =>
      Forall2
        (fun c c' =>
           exists cell hit,
             HostTests.at_ (HostTests.data record) (HostTests.matchIndex c)
             = Some cell
             /\ HostTests.same floatEq cell (HostTests.matchValue c)
                = Some hit
             /\ HostTests.matchIndex c' = HostTests.matchIndex c
             /\ HostTests.matchValue c' = HostTests.matchValue c
             /\ HostTests.isBonus c' = HostTests.isBonus c
             /\ HostTests.shouldBeInvalid c' = HostTests.shouldBeInvalid c
             /\ HostTests.match_ c'
                = if hit then Some record else HostTests.match_ c)
        r r'
  | None =>
      exists c,
        In c r
        /\ match HostTests.at_ (HostTests.data record)
                   (HostTests.matchIndex c) with
           | None => True
           | Some cell =>
               HostTests.same floatEq cell (HostTests.matchValue c) = None
           end
  end.
Proof.
  induction r as [|c r IH]; simpl; [constructor|].
  destruct (HostTests.at_ (HostTests.data record) (HostTests.matchIndex c))
    as [cell|] eqn:Hcell.
  - destruct (HostTests.same floatEq cell (HostTests.matchValue c))
      as [hit|] eqn:Hsame.
    + destruct (HostTests.evaluate floatEq r record) as [r'|].
      * constructor; [|exact IH]. exists cell, hit.
        destruct hit; simpl; repeat split; auto.
      * destruct IH as [x [Hx Hbad]]. exists x. split; [now right | exact Hbad].
    + exists c. split; [now left|]. now rewrite Hcell.
  - exists c. split; [now left|]. now rewrite Hcell.
Qed.

(** X12. The record checks of the host, on a stream of records it could
    evaluate without panic: every check keeps its index, value and flags,
    and ends with the last record of the stream whose cell at the index
    equals the value, or as it started when there is none; so a check that
    asks for an invalid record is judged on the last matching record
    only.  The evaluation of a record panics exactly when a check points
    outside the cells of the record or compares two arrays or two
    objects. *)
Theorem evaluateAll_keeps_last_match
    (records : list (HostTests.received float64))
    (r : list (HostTests.recordCheck float64)) :
  let hits (c : HostTests.recordCheck float64)
           (record : HostTests.received float64) : bool :=
    match HostTests.at_ (HostTests.data record) (HostTests.matchIndex c) with
    | Some cell =>
        match HostTests.same floatEq cell (HostTests.matchValue c) with
        | Some true => true
        | _ => false
        end
    | None => false
    end in
  (forall r',
     HostTests.evaluateAll floatEq r records = Some r' ->
     Forall2
       (fun c c' =>
          HostTests.matchIndex c' = HostTests.matchIndex c
          /\ HostTests.matchValue c' = HostTests.matchValue c
          /\ HostTests.isBonus c' = HostTests.isBonus c
          /\ HostTests.shouldBeInvalid c' = HostTests.shouldBeInvalid c
          /\ HostTests.match_ c'
             = match find (hits c) (rev records) with
               | Some record => Some record
               | None => HostTests.match_ c
               end)
       r r')
  /\ (forall record,
        HostTests.evaluate floatEq r record = None
        <-> exists c,
              In c r
              /\ match HostTests.at_ (HostTests.data record)
                         (HostTests.matchIndex c) with
                 | None => True
                 | Some cell =>
                     HostTests.same floatEq cell (HostTests.matchValue c)
                     = None
                 end).
Proof.
  intros hits. split.
  - revert r. induction records as [|record records IH]; intros r r' Hrun;
      simpl in Hrun.
    + injection Hrun as <-. simpl.
      induction r as [|c r IHr]; constructor; [repeat split | exact IHr].
    + pose proof (evaluate_spec r record) as Hstep.
      destruct (HostTests.evaluate floatEq r record) as [r1|];
        [|discriminate].
      specialize (IH r1 r' Hrun). simpl. clear Hrun.
      revert r' IH. induction Hstep as [|c c1 r r1 Hc _ IHstep];
        intros r' IH; inversion IH as [|? c' ? r'' Hc' Hrest]; subst;
        constructor; [|now apply IHstep].
      destruct Hc as [cell [hit [Hcell [Hsame [Hi [Hv [Hb [Hs Hm]]]]]]]].
      destruct Hc' as [Hi' [Hv' [Hb' [Hs' Hm']]]].
      repeat split; try congruence.
      assert (Hext : forall l, find (hits c1) l = find (hits c) l).
      { intros l. induction l as [|x l IHl]; simpl; [reflexivity|].
        rewrite IHl. unfold hits. now rewrite Hi, Hv. }
      rewrite Hm', Hext.
      destruct (find (hits c) (rev records)) as [found|] eqn:Hfound.
      * now rewrite (find_app_found _ _ _ _ Hfound).
      * rewrite (find_app_missing _ _ _ Hfound). simpl.
        unfold hits at 1. rewrite Hcell, Hsame, Hm.
        now destruct hit.
  - intros record. pose proof (evaluate_spec r record) as Hstep.
    destruct (HostTests.evaluate floatEq r record) as [r1|].
    + split; [discriminate|]. intros [c [Hin Hbad]]. exfalso.
      induction Hstep as [|x x1 r r1 Hx _ IHstep]; [contradiction|].
      destruct Hin as [->|Hin]; [|now apply IHstep].
      destruct Hx as [cell [hit [Hcell [Hsame _]]]].
      rewrite Hcell in Hbad. congruence.
    + split; [intros _; exact Hstep | reflexivity].
Qed.

End RecordChecks.

Lemma evaluateAll_keeps_last_match_witness :
  let first := {| HostTests.Invalid := true;
                  HostTests.data := [HostTests.JFloat 1%Z;
                                     HostTests.JString "Macropus"] |} in
  let second := {| HostTests.Invalid := false;
                   HostTests.data := [HostTests.JFloat 2%Z;
                                      HostTests.JString "Macropus"] |} in
  let check := HostTests.bonusRecordCheck 1%Z (HostTests.JString "Macropus")
                 true in
  exists check',
    HostTests.evaluateAll Z.eqb [check] [first; second] = Some [check']
    /\ HostTests.match_ check' = Some second
    /\ HostTests.result_ok check' = false.
Proof.
  intros first second check.
  destruct (HostTests.evaluateAll Z.eqb [check] [first; second])
    as [r'|] eqn:Hrun; [|discriminate].
  pose proof (proj1 (evaluateAll_keeps_last_match Z Z.eqb [first; second]
                       [check]) r' Hrun) as Hall.
  inversion Hall as [|? check' ? rest [_ [_ [_ [Hs Hm]]]] Hrest]; subst.
  inversion Hrest; subst.
  exists check'. split; [reflexivity|]. simpl in Hm. split; [exact Hm|].
  unfold HostTests.result_ok. rewrite Hm, Hs. reflexivity.
Defined.

(** *** The handshake line *)

Lemma digitsValue_of_uint (d : Decimal.uint) :
  forall acc : nat,
  Host.digitsValue (Z.of_nat acc) (chars (NilEmpty.string_of_uint d))
  = Some (Z.of_nat (Nat.of_uint_acc d acc)).
Proof.
  assert (Hstep : forall (c : ascii) (l : list ascii) (a : Z),
            isDecimalDigit c = true ->
            Host.digitsValue a (c :: l)
            = Host.digitsValue (10 * a + (Z.of_N (code c) - 48))%Z l).
  { intros c l a Hc. simpl. now rewrite Hc. }
  induction d; intros acc; [reflexivity|..];
    unfold chars;
    cbn [NilEmpty.string_of_uint list_ascii_of_string Nat.of_uint_acc];
    fold (chars (NilEmpty.string_of_uint d));
    rewrite Hstep by reflexivity; rewrite <- IHd; f_equal;
    rewrite Nat.tail_mul_spec;
    match goal with
    | |- context [Z.of_N (code ?c)] =>
        let v := eval vm_compute in (Z.of_N (code c)) in
        change (Z.of_N (code c)) with v
    end; lia.
Qed.

Lemma digitsValue_digits (l : list ascii) :
  forall acc v : Z,
  Host.digitsValue acc l = Some v -> forallb isDecimalDigit l = true.
Proof.
  induction l as [|c l IH]; intros acc v Hv; simpl in *; [reflexivity|].
  destruct (isDecimalDigit c); [|discriminate]. simpl. eapply IH; eauto.
Qed.

Lemma to_uint_not_nil (n : nat) : Nat.to_uint n <> Decimal.Nil.
Proof.
  intros E. pose proof (DecimalNat.Unsigned.of_to n) as Hn.
  rewrite E in Hn. simpl in Hn. subst n. discriminate E.
Qed.

(** X13. The handshake round trip: when the plugin writes a port
    between 0 and the largest [int] as its decimal numeral on its first
    line, the host runs the tests on that very port. *)
Theorem handshake_round_trip (port : nat) :
  (Z.of_nat port < 2 ^ 63)%Z ->
  Host.main (Host.Line (decimal port)) = Host.RunTests (Z.of_nat port).
Proof.
  intros Hrange.
  assert (Hvalue : Host.digitsValue 0%Z (chars (decimal port))
                   = Some (Z.of_nat port)).
  { unfold decimal.
    pose proof (digitsValue_of_uint (Nat.to_uint port) 0) as Hd.
    simpl Z.of_nat in Hd. rewrite Hd.
    fold (Nat.of_uint (Nat.to_uint port)).
    now rewrite DecimalNat.Unsigned.of_to. }
  assert (Hhead : exists c r, chars (decimal port) = c :: r
                              /\ isDecimalDigit c = true).
  { unfold decimal. pose proof (to_uint_not_nil port) as Hnil.
    destruct (Nat.to_uint port); try congruence;
      eexists; eexists; (split; [reflexivity | reflexivity]). }
  destruct Hhead as [c [r [Hchars Hdigit]]].
  assert (Hsign : ((code c =? 43) || (code c =? 45))%N = false).
  { unfold isDecimalDigit in Hdigit.
    apply andb_true_iff in Hdigit. rewrite !N.leb_le in Hdigit.
    apply orb_false_iff. rewrite !N.eqb_neq. lia. }
  assert (Hminus : (code c =? 45)%N = false)
    by (apply orb_false_iff in Hsign; tauto).
  simpl. unfold Host.monitorStdout, Host.Atoi.
  rewrite Hchars in *. rewrite Hsign, Hminus, Hvalue.
  replace ((- 2 ^ 63 <=? Z.of_nat port) && (Z.of_nat port <? 2 ^ 63))%Z
    with true; [reflexivity|].
  symmetry. apply andb_true_iff. rewrite Z.leb_le, Z.ltb_lt. lia.
Qed.

Lemma handshake_round_trip_witness :
  (Z.of_nat 5000 < 2 ^ 63)%Z
  /\ Host.main (Host.Line "5000") = Host.RunTests 5000.
Proof.
  assert (Hrange : (Z.of_nat 5000 < 2 ^ 63)%Z) by (apply Z.ltb_lt; reflexivity).
  split; [exact Hrange|].
  exact (handshake_round_trip 5000 Hrange).
Defined.

(** The texts [strconv.Atoi] takes: an optional sign, digits, nothing
    else. *)
Lemma Atoi_text_shape (line : string) (port : Z) :
  Host.main (Host.Line line) = Host.RunTests port ->
  (exists sign digits,
     chars line = sign ++ digits
     /\ (sign = [] \/ sign = ["+"%char] \/ sign = ["-"%char])
     /\ digits <> []
     /\ forallb isDecimalDigit digits = true)
  /\ (- 2 ^ 63 <= port < 2 ^ 63)%Z.
Proof.
  simpl. unfold Host.monitorStdout, Host.Atoi. intros Hrun.
  destruct (chars line) as [|c r] eqn:Hchars; [discriminate|].
  set (ds := if ((code c =? 43) || (code c =? 45))%N then r else c :: r)
    in *.
  assert (Hshape : exists sign,
            c :: r = sign ++ ds
            /\ (sign = [] \/ sign = ["+"%char] \/ sign = ["-"%char])).
  { subst ds. destruct (N.eqb_spec (code c) 43) as [Hp|Hp]; simpl.
    - exists [c]. split; [reflexivity|]. right. left. f_equal.
      unfold code in Hp. rewrite <- (ascii_N_embedding c), Hp. reflexivity.
    - destruct (N.eqb_spec (code c) 45) as [Hm|Hm]; simpl.
      + exists [c]. split; [reflexivity|]. right. right. f_equal.
        unfold code in Hm. rewrite <- (ascii_N_embedding c), Hm. reflexivity.
      + exists []. split; [reflexivity | now left]. }
  destruct Hshape as [sign [Hsplit Hsign]].
  destruct ds as [|d ds'] eqn:Hds; [discriminate|].
  destruct (Host.digitsValue 0%Z (d :: ds')) as [n|] eqn:Hn; [|discriminate].
  destruct ((- 2 ^ 63 <=? (if (code c =? 45)%N then - n else n))
            && ((if (code c =? 45)%N then - n else n) <? 2 ^ 63))%Z
    eqn:Hrange; [|discriminate].
  injection Hrun as <-. split.
  - exists sign, (d :: ds'). split; [exact Hsplit|]. split; [exact Hsign|].
    split; [discriminate|]. eapply digitsValue_digits; eauto.
  - apply andb_true_iff in Hrange. rewrite Z.leb_le, Z.ltb_lt in Hrange.
    exact Hrange.
Qed.

Lemma firstLine_split (data : list ascii) :
  exists rest,
    data = HostScan.firstLine data ++ rest
    /\ (rest = [] \/ exists more, rest = "010"%char :: more).
Proof.
  induction data as [|c r [rest [Hsplit Hrest]]]; simpl.
  - exists []. split; [reflexivity | now left].
  - destruct (N.eqb_spec (code c) 10) as [Hnl|Hnl].
    + exists (c :: r). split; [reflexivity|]. right. exists r. f_equal.
      unfold code in Hnl. rewrite <- (ascii_N_embedding c), Hnl. reflexivity.
    + exists rest. split; [simpl; now f_equal | exact Hrest].
Qed.

Lemma dropCR_split (data : list ascii) :
  exists cr,
    data = HostScan.dropCR data ++ cr
    /\ (cr = [] \/ cr = ["013"%char]).
Proof.
  induction data as [|c r [cr [Hsplit Hcr]]].
  - exists []. split; [reflexivity | now left].
  - destruct r as [|d r'].
    + simpl. destruct (N.eqb_spec (code c) 13) as [Hc|Hc].
      * exists [c]. split; [reflexivity|]. right. f_equal.
        unfold code in Hc. rewrite <- (ascii_N_embedding c), Hc. reflexivity.
      * exists []. split; [reflexivity | now left].
    + exists cr. split; [|exact Hcr].
      change (HostScan.dropCR (c :: d :: r'))
        with (c :: HostScan.dropCR (d :: r')).
      simpl. now f_equal.
Qed.

Lemma chars_text (l : list ascii) : chars (text l) = l.
Proof. apply list_ascii_of_string_of_list_ascii. Qed.

(** X14. What the plugin may write for the host to take it as a
    handshake.  The tests run on [port] only if the output of the plugin
    starts with an optional plus or minus sign and one decimal digit or
    more, followed at once by the end of the line: a newline, a carriage
    return and a newline, or the end of the output with or without a
    carriage return before it.  No space or other byte may stand before
    the end of the line, the line is shorter than the buffer of the
    scanner, the text the scanner hands to [Atoi] is the sign and the
    digits, and [port] fits a 64-bit [int].  A carriage return before the
    newline is dropped by the scanner, so a line that ends in one is
    taken. *)
Theorem handshake_line_shape (output : string) (port : Z) :
  Host.main (Host.Line (HostScan.Text output)) = Host.RunTests port ->
  (exists sign digits cr rest,
     chars output = sign ++ digits ++ cr ++ rest
     /\ (sign = [] \/ sign = ["+"%char] \/ sign = ["-"%char])
     /\ digits <> []
     /\ forallb isDecimalDigit digits = true
     /\ (cr = [] \/ cr = ["013"%char])
     /\ (rest = [] \/ exists more, rest = "010"%char :: more)
     /\ (Z.of_nat (List.length (sign ++ digits ++ cr))
         < HostScan.MaxScanTokenSize)%Z
     /\ HostScan.Text output = text (sign ++ digits))
  /\ (- 2 ^ 63 <= port < 2 ^ 63)%Z.
Proof.
  intros Hrun.
  assert (Htext : HostScan.Text output
                  = text (HostScan.dropCR
                            (HostScan.firstLine (chars output)))
                  /\ (Z.of_nat (List.length
                                  (HostScan.firstLine (chars output)))
                      < HostScan.MaxScanTokenSize)%Z).
  { unfold HostScan.Text in *.
    destruct (Z.ltb_spec
                (Z.of_nat (List.length (HostScan.firstLine (chars output))))
                HostScan.MaxScanTokenSize) as [Hlt|Hge].
    - split; [reflexivity | exact Hlt].
    - discriminate. }
  destruct Htext as [Htext Hlen]. rewrite Htext in Hrun.
  destruct (Atoi_text_shape _ _ Hrun)
    as [[sign [digits [Hchars [Hsign [Hne Hdigits]]]]] Hrange].
  rewrite chars_text in Hchars.
  destruct (firstLine_split (chars output)) as [rest [Hout Hrest]].
  destruct (dropCR_split (HostScan.firstLine (chars output)))
    as [cr [Hline Hcr]].
  split; [|exact Hrange].
  exists sign, digits, cr, rest.
  assert (Hfirst : HostScan.firstLine (chars output) = sign ++ digits ++ cr).
  { rewrite Hline at 1. rewrite Hchars. now rewrite <- app_assoc. }
  split.
  { rewrite Hout at 1. rewrite Hfirst. now rewrite <- !app_assoc. }
  split; [exact Hsign|]. split; [exact Hne|]. split; [exact Hdigits|].
  split; [exact Hcr|]. split; [exact Hrest|]. split.
  - now rewrite <- Hfirst.
  - rewrite Htext. now rewrite Hchars.
Qed.

Lemma handshake_line_shape_witness :
  let output := String "5" (String "0" (String "0" (String "0"
                  (String "013" (String "010" "PLUGIN ready"))))) in
  Host.main (Host.Line (HostScan.Text output)) = Host.RunTests 5000
  /\ HostScan.Text output = "5000"
  /\ (- 2 ^ 63 <= 5000 < 2 ^ 63)%Z.
Proof.
  intros output.
  assert (Hrun : Host.main (Host.Line (HostScan.Text output))
                 = Host.RunTests 5000)
    by reflexivity.
  split; [exact Hrun|]. split; [reflexivity|].
  apply (handshake_line_shape output 5000%Z Hrun).
Defined.

(* ------------------------------------------------------------------ *)
(** ** Further properties: paths *)
(* ------------------------------------------------------------------ *)

Lemma split_not_nil (c : ascii) (s : string) : split c s <> [].
Proof.
  destruct s as [|a r]; simpl; [discriminate|].
  destruct (Ascii.eqb a c); [discriminate|].
  destruct (split c r); discriminate.
Qed.

Lemma split_concat (c : ascii) (s : string) :
  String.concat (String c EmptyString) (split c s) = s
  /\ Forall (fun w => ~ In c (chars w)) (split c s).
Proof.
  induction s as [|a r [IHc IHf]]; simpl.
  - split; [reflexivity | repeat constructor; auto].
  - pose proof (split_not_nil c r) as Hne.
    destruct (Ascii.eqb_spec a c) as [->|Hac].
    + split.
      * destruct (split c r) as [|w ws]; [congruence|].
        simpl in *. now rewrite IHc.
      * constructor; [simpl; tauto | exact IHf].
    + destruct (split c r) as [|w ws]; [congruence|]. split.
      * destruct ws as [|w' ws']; simpl in *; now rewrite IHc.
      * inversion IHf as [|? ? Hw Hws]; subst. constructor; [|exact Hws].
        unfold chars in *. simpl. intros [E|Hin]; [congruence | tauto].
Qed.

(** X15. The files [Publish] reads are the pieces of [settings] between
    its commas: joined with commas they give [settings] back, there is
    always at least one (the empty path for empty [settings]), and none
    contains a comma, so a path with a comma is never read as one file. *)
Theorem publish_files_are_comma_pieces `{Engine} (call : Call.t) :
  String.concat "," (Permissive.files call)
  = Request.settings (Call.request call)
  /\ Permissive.files call <> []
  /\ (forall f, In f (Permissive.files call) -> ~ In ","%char (chars f))
  /\ (Request.settings (Call.request call) = EmptyString ->
      Permissive.files call = [EmptyString]).
Proof.
  unfold Permissive.files.
  destruct (split_concat "," (Request.settings (Call.request call)))
    as [Hconcat Hparts].
  split; [exact Hconcat|]. split; [apply split_not_nil|]. split.
  - rewrite Forall_forall in Hparts. exact Hparts.
  - intros ->. reflexivity.
Qed.

Lemma publish_files_are_comma_pieces_witness :
  Permissive.files (Sample.call "" Sample.idOnly) = [EmptyString].
Proof.
  apply (publish_files_are_comma_pieces (Sample.call "" Sample.idOnly)).
  reflexivity.
Defined.

Lemma chars_append (a b : string) : chars (a ++ b) = chars a ++ chars b.
Proof.
  unfold chars. induction a as [|c a IH]; simpl; [reflexivity|].
  now rewrite IH.
Qed.

Lemma append_assoc (a b c : string) :
  ((a ++ b) ++ c = a ++ (b ++ c))%string.
Proof.
  induction a as [|x a IH]; simpl; [reflexivity | now rewrite IH].
Qed.

Lemma text_chars (s : string) : text (chars s) = s.
Proof. apply string_of_list_ascii_of_string. Qed.

Lemma code_slash (a : ascii) : (code a =? 47)%N = true <-> a = "/"%char.
Proof.
  rewrite N.eqb_eq. unfold code. split; [|intros ->; reflexivity].
  intros Hc. rewrite <- (ascii_N_embedding a), Hc. reflexivity.
Qed.

Lemma hd_split_dot (a b : string) :
  ~ In "."%char (chars a) ->
  hd EmptyString (split "." (a ++ String "." b)) = a.
Proof.
  unfold chars. induction a as [|c a IH]; simpl; intros Hdot;
    [reflexivity|].
  destruct (Ascii.eqb_spec c ".") as [->|Hc]; [tauto|].
  specialize (IH ltac:(tauto)).
  destruct (split "." (a ++ String "." b)) as [|w ws]; simpl in *;
    now subst.
Qed.

Lemma takeToSlash_app (l tail : list ascii) :
  ~ In "/"%char l ->
  (tail = [] \/ exists t, tail = "/"%char :: t) ->
  takeToSlash (l ++ tail) = l.
Proof.
  induction l as [|a l IH]; simpl; intros Hl Htail.
  - destruct Htail as [->|[t ->]]; reflexivity.
  - destruct (code a =? 47)%N eqn:Ha.
    + apply code_slash in Ha. tauto.
    + rewrite IH; auto.
Qed.

Lemma listEqb_eq (x y : list ascii) : listEqb x y = true -> x = y.
Proof.
  revert y; induction x as [|a x IH]; intros [|b y]; simpl;
    try discriminate; [reflexivity|].
  intros Hab. apply andb_true_iff in Hab. destruct Hab as [Ha Hx].
  apply Ascii.eqb_eq in Ha. subst. f_equal. now apply IH.
Qed.

Lemma basename_of_plain_name (p base : string) (pre : list ascii) :
  chars p = pre ++ chars base ->
  (pre = [] \/ exists d, pre = d ++ ["/"%char]) ->
  base <> EmptyString ->
  ~ In "/"%char (chars base) ->
  ~ In "."%char (chars base) ->
  basename p ".csv" = base.
Proof.
  intros Hp Hpre Hne Hslash Hdot. unfold basename. rewrite Hp, rev_app_distr.
  assert (Htail : rev pre = [] \/ exists t, rev pre = "/"%char :: t).
  { destruct Hpre as [->|[d ->]]; [now left|]. right.
    rewrite rev_app_distr. simpl. eauto. }
  assert (Hrslash : ~ In "/"%char (rev (chars base)))
    by (now rewrite <- in_rev).
  assert (Hdrop : dropSlashes (rev (chars base) ++ rev pre)
                  = rev (chars base) ++ rev pre).
  { destruct (rev (chars base)) as [|b bs] eqn:Hrev.
    - exfalso. apply Hne. rewrite <- (text_chars base).
      rewrite <- (rev_involutive (chars base)), Hrev. reflexivity.
    - simpl. destruct (code b =? 47)%N eqn:Hb; [|reflexivity].
      apply code_slash in Hb. subst. exfalso. apply Hrslash. now left. }
  rewrite Hdrop, takeToSlash_app by assumption.
  destruct (Nat.ltb (List.length (rev (chars ".csv")))
              (List.length (rev (chars base)))
            && listEqb (firstn (List.length (rev (chars ".csv")))
                          (rev (chars base)))
                       (rev (chars ".csv"))) eqn:Hext.
  - exfalso. apply andb_true_iff in Hext. destruct Hext as [_ Heq].
    apply listEqb_eq in Heq. apply Hdot. apply in_rev.
    rewrite <- (firstn_skipn (List.length (rev (chars ".csv")))
                  (rev (chars base))).
    apply in_or_app. left. rewrite Heq. simpl. tauto.
  - now rewrite rev_involutive, text_chars.
Qed.

(** X16. Where the naming of a schema works: for a path whose
    directories have no dot and whose file name starts with a plain name
    (not empty, no dot, no slash) followed by a dot, [getSchema] names the
    schema with that plain name, whatever follows the first dot of the file
    name; the same holds for a file name alone. *)
Theorem schemaName_of_plain_path (dir base rest : string) :
  ~ In "."%char (chars dir) ->
  base <> EmptyString ->
  ~ In "/"%char (chars base) ->
  ~ In "."%char (chars base) ->
  schemaName (dir ++ "/" ++ base ++ "." ++ rest) = base
  /\ schemaName (base ++ "." ++ rest) = base.
Proof.
  intros Hdir Hne Hslash Hdot. unfold schemaName. split.
  - replace (dir ++ "/" ++ base ++ "." ++ rest)%string
      with ((dir ++ "/" ++ base) ++ String "." rest)%string
      by (rewrite !append_assoc; reflexivity).
    rewrite hd_split_dot.
    + apply basename_of_plain_name with (pre := chars dir ++ ["/"%char]);
        auto.
      * rewrite !chars_append, <- app_assoc. reflexivity.
      * right. eauto.
    + rewrite !chars_append, !in_app_iff. simpl.
      intros [H|[[H|[]]|H]]; try tauto. discriminate.
  - change (base ++ "." ++ rest)%string with (base ++ String "." rest)%string.
    rewrite hd_split_dot by assumption.
    apply basename_of_plain_name with (pre := []); auto.
Qed.

Lemma schemaName_of_plain_path_witness :
  schemaName "/code-challenge-plugin/data/people.1.csv" = "people".
Proof.
  apply (schemaName_of_plain_path "/code-challenge-plugin/data" "people"
           "1.csv").
  - simpl. intuition discriminate.
  - discriminate.
  - simpl. intuition discriminate.
  - simpl. intuition discriminate.
Defined.

(* ------------------------------------------------------------------ *)
(** ** Further properties: the two versions of utils.js *)
(* ------------------------------------------------------------------ *)

Lemma lowerChar_letter (c : ascii) (lower upper : ascii) :
  (97 <= code lower <= 122)%N ->
  code upper = (code lower - 32)%N ->
  lowerChar c = lower -> c = lower \/ c = upper.
Proof.
  intros Hrange Hupper. unfold lowerChar.
  destruct ((65 <=? code c) && (code c <=? 90))%N eqn:Hc; [|now left].
  intros Hl. right. apply andb_true_iff in Hc. rewrite !N.leb_le in Hc.
  assert (Hcode : (code c + 32 = code lower)%N).
  { rewrite <- Hl. unfold code at 2. rewrite N_ascii_embedding; lia. }
  unfold code in *.
  rewrite <- (ascii_N_embedding c), <- (ascii_N_embedding upper).
  f_equal. lia.
Qed.

Lemma toLowerCase_one_letter (s : string) (lower upper : ascii) :
  (97 <= code lower <= 122)%N ->
  code upper = (code lower - 32)%N ->
  toLowerCase s = String lower EmptyString ->
  s = String lower EmptyString \/ s = String upper EmptyString.
Proof.
  intros Hrange Hupper. destruct s as [|c [|d s]]; simpl; try discriminate.
  intros [= Hc].
  destruct (lowerChar_letter c lower upper Hrange Hupper Hc) as [->| ->];
    auto.
Qed.

Section Versions.
Context `{Engine}.

(** X17. The two versions of utils.js classify and convert every text
    alike, except the four texts t, T, f and F: these are booleans for the
    version with the larger word set and convert to [true] there, while the
    first version never calls them boolean and converts them to [false]
    under a boolean column. *)
Theorem versions_differ_on_t_and_f (s : string) :
  (~ In s ["t"; "T"; "f"; "F"] ->
   Strict.getType s = Permissive.getType s
   /\ forall type, Strict.convertToType s type
                   = Permissive.convertToType s type)
  /\ (In s ["t"; "T"; "f"; "F"] ->
      Permissive.getType s = "boolean"
      /\ Strict.getType s <> "boolean"
      /\ Permissive.convertToType s "boolean" = VBoolean true
      /\ Strict.convertToType s "boolean" = VBoolean false).
Proof.
  split.
  - intros Hnot.
    assert (Ht : String.eqb (toLowerCase s) "t" = false).
    { apply String.eqb_neq. intros E.
      destruct (toLowerCase_one_letter s "t" "T") as [->| ->];
        simpl in *; auto; try tauto.
      unfold code. simpl. lia. }
    assert (Hf : String.eqb (toLowerCase s) "f" = false).
    { apply String.eqb_neq. intros E.
      destruct (toLowerCase_one_letter s "f" "F") as [->| ->];
        simpl in *; auto; try tauto.
      unfold code. simpl. lia. }
    unfold Strict.getType, Permissive.getType, Strict.convertToType,
      Permissive.convertToType.
    rewrite Ht, Hf, !orb_false_r. split; [reflexivity|]. intros type.
    reflexivity.
  - intros [<-|[<-|[<-|[<-|[]]]]];
      (split; [reflexivity|]); (split; [|split; reflexivity]);
      unfold Strict.getType; simpl;
      destruct (Date_parse _); discriminate.
Qed.

End Versions.

Lemma versions_differ_on_t_and_f_witness :
  Strict.getType "blue" = Permissive.getType "blue".
Proof.
  apply (versions_differ_on_t_and_f "blue").
  simpl. intuition discriminate.
Defined.

(* ------------------------------------------------------------------ *)
(** ** Further properties: Discover and Publish together *)
(* ------------------------------------------------------------------ *)

Section DiscoverBlocked.
Context `{Engine}.

Variable read : string -> list Row.

Lemma getSchema_throws (f : string) (knownSchemas : list Schema.t) :
  (read f = []
   \/ exists row rest r,
        read f = row :: rest /\ In r rest
        /\ (List.length row < List.length r)%nat) ->
  fst (Permissive.getSchema f (read f) knownSchemas) = TypeError.
Proof.
  intros [Hempty|[row [rest [r [Hread [Hr Hwide]]]]]];
    unfold Permissive.getSchema.
  - now rewrite Hempty.
  - rewrite Hread.
    destruct (Permissive.fileSchema f (Object_keys row) (row :: rest))
      as [schema|] eqn:Hfile; [|reflexivity].
    apply fileSchema_ok_width in Hfile. rewrite Forall_forall in Hfile.
    specialize (Hfile r Hr). lia.
Qed.

Lemma runGetSchema_entries (completion : list string) :
  forall (knownSchemas : list Schema.t) (f : string) (r : result Schema.t),
  In (f, r) (fst (Plugin.runGetSchema read completion knownSchemas)) ->
  exists k, r = fst (Permissive.getSchema f (read f) k).
Proof.
  induction completion as [|g rest IH]; intros known f r Hin; simpl in Hin;
    [contradiction|].
  destruct (Permissive.getSchema g (read g) known) as [rg known1] eqn:Hg.
  specialize (IH known1 f r).
  destruct (Plugin.runGetSchema read rest known1) as [rs known2].
  simpl in *. destruct Hin as [[= <- <-]|Hin]; [|now apply IH].
  exists known. now rewrite Hg.
Qed.

(** X18. One file that cannot be read into a schema blocks the whole
    answer: when one of the files found has no data row, or has a row
    wider than its first row, the callback of [Discover] is never called,
    whatever the other files are and in whatever order the reads
    complete. *)
Theorem Discover_blocked_by_one_file (files completion : list string)
    (knownSchemas : list Schema.t) (f : string) :
  In f files ->
  (read f = []
   \/ exists row rest r,
        read f = row :: rest /\ In r rest
        /\ (List.length row < List.length r)%nat) ->
  fst (Plugin.Discover read files completion knownSchemas) = None.
Proof.
  intros Hf Hbad. unfold Plugin.Discover.
  pose proof (runGetSchema_entries completion knownSchemas f) as Hentries.
  destruct (Plugin.runGetSchema read completion knownSchemas)
    as [results known']. simpl in *.
  assert (Hvalue : Plugin.valueOf f results = None).
  { induction results as [|[g r] results IHr]; simpl; [reflexivity|].
    destruct (String.eqb_spec g f) as [->|Hne].
    - destruct (Hentries r (or_introl eq_refl)) as [k ->].
      now rewrite (getSchema_throws f k Hbad).
    - apply IHr. intros r' Hr'. apply Hentries. now right. }
  replace (Plugin.allValues files results) with (@None (list Schema.t));
    [reflexivity|].
  symmetry. clear Hentries. induction files as [|g files IH]; simpl in *;
    [contradiction|].
  destruct Hf as [->|Hf]; [now rewrite Hvalue|].
  rewrite (IH Hf). now destruct (Plugin.valueOf g results).
Qed.

End DiscoverBlocked.

Lemma Discover_blocked_by_one_file_witness :
  fst (Plugin.Discover
         (fun f => if String.eqb f "empty.csv" then [] else Sample.tenRows)
         ["a.csv"; "empty.csv"] ["empty.csv"; "a.csv"] []) = None.
Proof.
  apply (Discover_blocked_by_one_file _ _ _ _ "empty.csv").
  - right. now left.
  - left. reflexivity.
Defined.

Section Unanimous.
Context `{Engine}.




End Unanimous.

